(** * log-parser: a shallow embedding of [log-parser.py] and its properties

    The program scans a text log file, keeps the lines that match a keyword
    and a time range, and appends them to a CSV file.  The embedding below
    follows the Python source function by function.

    Conventions of the model.
    - Text is [string]; a character is a code point below 256, so the
      character classes of Python ([str.isspace], [\d], [str.lower]) are
      the restrictions of the Unicode ones to that range.
    - A [datetime] is the record of its seven integer fields; the values
      are naive (no time zone), as all those of the program are.
    - Effects (console, standard input, file system, wall clock) live in a
      [World]; a computation maps a world to an outcome (a value or a raised
      exception) and the world it leaves behind.  State changes made before
      an exception is raised persist, as in Python.
    - Month abbreviations are those of the C/English locale; files are
      written with ["\n"] as the line separator (POSIX). *)

From Stdlib Require Import ZArith Lia Bool Ascii String DecimalString.
From stdpp Require Import gmap strings list.

Local Open Scope Z_scope.

(* ===================================================================== *)
(** ** Text: the [str] methods the program calls *)
(* ===================================================================== *)

Module Text.

Definition code (c : ascii) : Z := Z.of_N (N_of_ascii c).

Definition between (lo hi : Z) (c : ascii) : bool :=
  (lo <=? code c) && (code c <=? hi).

(** [str.isspace] on one character: TAB..CR, FS..US, SPACE, NEL, NBSP. *)
Definition isspace (c : ascii) : bool :=
  between 9 13 c || between 28 32 c || (code c =? 133) || (code c =? 160).

(** [\d] of the [re] module (decimal digits). *)
Definition isdigit (c : ascii) : bool := between 48 57 c.

(** [str.lower] on one character. *)
Definition lower_char (c : ascii) : ascii :=
  if between 65 90 c || (between 192 222 c && negb (code c =? 215))
  then ascii_of_N (Z.to_N (code c + 32))
  else c.

Fixpoint lower (s : string) : string :=
  match s with
  | EmptyString => EmptyString
  | String c s' => String (lower_char c) (lower s')
  end.

(** [s.startswith(p)] *)
Fixpoint startswith (s p : string) {struct p} : bool :=
  match p, s with
  | EmptyString, _ => true
  | String _ _, EmptyString => false
  | String a p', String b s' => Ascii.eqb a b && startswith s' p'
  end.

(** [k in s]: [k] occurs in [s] as a contiguous run of characters. *)
Fixpoint contains (s k : string) : bool :=
  startswith s k ||
  match s with
  | EmptyString => false
  | String _ s' => contains s' k
  end.

(** [s.endswith(suf)]: the last [len(suf)] characters of [s] are [suf]. *)
Definition endswith (s suf : string) : bool :=
  (String.length suf <=? String.length s)%nat &&
  String.eqb
    (String.substring (String.length s - String.length suf)
                      (String.length suf) s)
    suf.

(** [s.lstrip()], [s.rstrip()], [s.strip()] with no argument. *)
Fixpoint lstrip (s : string) : string :=
  match s with
  | EmptyString => EmptyString
  | String c s' => if isspace c then lstrip s' else s
  end.

Fixpoint rstrip (s : string) : string :=
  match s with
  | EmptyString => EmptyString
  | String c s' =>
      match rstrip s' with
      | EmptyString => if isspace c then EmptyString else String c EmptyString
      | r => String c r
      end
  end.

Definition strip (s : string) : string := rstrip (lstrip s).

(** [s.split()] with no argument: the maximal runs of non-space
    characters, in order.  [cur] is the run being read, reversed. *)
Definition flush (cur : string) : list string :=
  match cur with
  | EmptyString => []
  | _ => [String.rev cur]
  end.

Fixpoint split_go (cur : string) (s : string) : list string :=
  match s with
  | EmptyString => flush cur
  | String c s' =>
      if isspace c then flush cur ++ split_go EmptyString s'
      else split_go (String c cur) s'
  end.

Definition split (s : string) : list string := split_go EmptyString s.

(** [sep.join(parts)] *)
Fixpoint join (sep : string) (parts : list string) : string :=
  match parts with
  | [] => EmptyString
  | [p] => p
  | p :: ps => p +:+ sep +:+ join sep ps
  end.

(** [str(n)] for an integer. *)
Definition str_of_Z (n : Z) : string := NilZero.string_of_int (Z.to_int n).

(** [int(s)] for a string of decimal digits (the only use made of it). *)
Definition digit_val (c : ascii) : Z := code c - 48.

Fixpoint int_go (acc : Z) (s : string) : Z :=
  match s with
  | EmptyString => acc
  | String c s' => int_go (10 * acc + digit_val c) s'
  end.

Definition int_of (s : string) : Z := int_go 0 (strip s).

(** [format(n, "0<w>d")]: decimal, left-padded with zeros to width [w]. *)
Fixpoint zeros (n : nat) : string :=
  match n with
  | O => EmptyString
  | S n' => String "0" (zeros n')
  end.

Definition zfill (w : nat) (n : Z) : string :=
  let s := str_of_Z n in
  zeros (w - String.length s) +:+ s.

(** The text iterator of a file opened with [open(path, 'r')]: universal
    newlines, every line keeps its terminator, translated to ["\n"]. *)
Definition NL : ascii := "010"%char.
Definition CR : ascii := "013"%char.

Definition cons_line (c : ascii) (ls : list string) : list string :=
  match ls with
  | [] => [String c EmptyString]
  | l :: ls' => String c l :: ls'
  end.

Fixpoint readlines (s : string) : list string :=
  match s with
  | EmptyString => []
  | String c s' =>
      if Ascii.eqb c NL then String NL EmptyString :: readlines s'
      else if Ascii.eqb c CR then
        match s' with
        | String c' s'' =>
            if Ascii.eqb c' NL then String NL EmptyString :: readlines s''
            else String NL EmptyString :: readlines s'
        | EmptyString => [String NL EmptyString]
        end
      else cons_line c (readlines s')
  end.

End Text.

Import Text.


(* ===================================================================== *)
(** ** Exceptions and outcomes *)
(* ===================================================================== *)

(** The exception classes the program can meet. *)
Inductive exn : Type :=
  | FileNotFoundError
  | PermissionError
  | IsADirectoryError
  | ValueError
  | EOFError
  | SystemExit.

#[global] Instance exn_eq_dec : EqDecision exn.
Proof. solve_decision. Defined.

(** What evaluating an expression gives: a value, or a raised exception. *)
Inductive outcome (A : Type) : Type :=
  | Ret (a : A)
  | Raise (e : exn).

Arguments Ret {A} a.
Arguments Raise {A} e.

(* ===================================================================== *)
(** ** [datetime.datetime] *)
(* ===================================================================== *)

Module Datetime.

Record datetime : Type := mkdt {
  year : Z; month : Z; day : Z;
  hour : Z; minute : Z; second : Z;
  microsecond : Z
}.

#[global] Instance datetime_eq_dec : EqDecision datetime.
Proof. solve_decision. Defined.

Definition fields (a : datetime) : list Z :=
  [year a; month a; day a; hour a; minute a; second a; microsecond a].

(** Comparison of naive datetimes: the first field that differs
    decides, the fields taken from the year down. *)
Fixpoint lex_compare (xs ys : list Z) : comparison :=
  match xs, ys with
  | x :: xs', y :: ys' =>
      match x ?= y with
      | Eq => lex_compare xs' ys'
      | c => c
      end
  | _, _ => Eq
  end.

Definition compare (a b : datetime) : comparison :=
  lex_compare (fields a) (fields b).

(** [a < b] and [a > b] of Python. *)
Definition ltb (a b : datetime) : bool :=
  match compare a b with Lt => true | _ => false end.

Definition gtb (a b : datetime) : bool :=
  match compare a b with Gt => true | _ => false end.

(** The order these implement, stated on its own: [a] is strictly
    earlier than [b] when the first field on which they differ is
    smaller in [a]. *)
Fixpoint lex_lt (xs ys : list Z) : Prop :=
  match xs, ys with
  | x :: xs', y :: ys' => x < y \/ (x = y /\ lex_lt xs' ys')
  | _, _ => False
  end.

Definition earlier (a b : datetime) : Prop := lex_lt (fields a) (fields b).

(** [a] is at or before [b]. *)
Definition at_or_before (a b : datetime) : Prop := earlier a b \/ a = b.

Definition is_leap (y : Z) : bool :=
  (y mod 4 =? 0) && (negb (y mod 100 =? 0) || (y mod 400 =? 0)).

Definition days_in_month (y m : Z) : Z :=
  if m =? 2 then (if is_leap y then 29 else 28)
  else if (m =? 4) || (m =? 6) || (m =? 9) || (m =? 11) then 30
  else 31.

(** The range checks of the [datetime] constructor. *)
Definition valid (d : datetime) : bool :=
  (1 <=? year d) && (year d <=? 9999) &&
  (1 <=? month d) && (month d <=? 12) &&
  (1 <=? day d) && (day d <=? days_in_month (year d) (month d)) &&
  (0 <=? hour d) && (hour d <=? 23) &&
  (0 <=? minute d) && (minute d <=? 59) &&
  (0 <=? second d) && (second d <=? 59) &&
  (0 <=? microsecond d) && (microsecond d <=? 999999).

(** *** [strftime] for the format ["%Y-%m-%d %H:%M:%S"] and its kin:
    [%Y], [%m], [%d], [%H], [%M], [%S] are replaced by the zero-padded
    field, every other character is copied. *)
Definition strf_field (c : ascii) (d : datetime) : string :=
  if Ascii.eqb c "Y" then zfill 4 (year d)
  else if Ascii.eqb c "m" then zfill 2 (month d)
  else if Ascii.eqb c "d" then zfill 2 (day d)
  else if Ascii.eqb c "H" then zfill 2 (hour d)
  else if Ascii.eqb c "M" then zfill 2 (minute d)
  else if Ascii.eqb c "S" then zfill 2 (second d)
  else String "%" (String c EmptyString).

Fixpoint strftime (d : datetime) (fmt : string) : string :=
  match fmt with
  | EmptyString => EmptyString
  | String c rest =>
      if Ascii.eqb c "%" then
        match rest with
        | String k rest' => strf_field k d +:+ strftime d rest'
        | EmptyString => String c EmptyString
        end
      else String c (strftime d rest)
  end.

End Datetime.

Import Datetime.

(* ===================================================================== *)
(** ** [datetime.datetime.strptime]

    The library turns the format into a regular expression, matches it at
    the start of the data (alternatives in order, greedy repetition, with
    backtracking, ignoring case), refuses data left over after the match,
    and builds the datetime, whose constructor checks the ranges.  Every
    failure is a [ValueError].  The model covers the directives of the two
    formats of the program. *)
(* ===================================================================== *)

Module Strptime.

Inductive directive : Type :=
  | dir_b | dir_d | dir_H | dir_M | dir_S | dir_Y | dir_m.

(** A format is a sequence of directives, runs of white space (which
    become [\s+]) and literal characters. *)
Inductive item : Type :=
  | Dir (d : directive)
  | Spaces
  | Lit (c : ascii).

(** A character class, and the classes the directives use. *)
Definition cls : Type := ascii -> bool.

Definition one (c : ascii) : cls := fun x => Ascii.eqb x c.
Definition rng (lo hi : ascii) : cls := fun x => between (code lo) (code hi) x.
Definition nocase (c : ascii) : cls :=
  fun x => Ascii.eqb (lower_char x) (lower_char c).

Fixpoint nocase_word (w : string) : list cls :=
  match w with
  | EmptyString => []
  | String c w' => nocase c :: nocase_word w'
  end.

Definition month_abbr : list string :=
  ["jan"; "feb"; "mar"; "apr"; "may"; "jun";
   "jul"; "aug"; "sep"; "oct"; "nov"; "dec"]%string.

(** The alternatives of each directive, in the order of the library's
    regular expressions. *)
Definition alternatives (d : directive) : list (list cls) :=
  match d with
  | dir_b => map nocase_word month_abbr
  | dir_d => [[one "3"; rng "0" "1"]; [rng "1" "2"; isdigit];
              [one "0"; rng "1" "9"]; [rng "1" "9"];
              [one " "; rng "1" "9"]]
  | dir_H => [[one "2"; rng "0" "3"]; [rng "0" "1"; isdigit]; [isdigit]]
  | dir_M => [[rng "0" "5"; isdigit]; [isdigit]]
  | dir_S => [[one "6"; rng "0" "1"]; [rng "0" "5"; isdigit]; [isdigit]]
  | dir_Y => [[isdigit; isdigit; isdigit; isdigit]]
  | dir_m => [[one "1"; rng "0" "2"]; [one "0"; rng "1" "9"]; [rng "1" "9"]]
  end%char.

(** Match a sequence of classes at the start of [s]: the text matched
    and the rest. *)
Fixpoint match_classes (cs : list cls) (s : string) : option (string * string) :=
  match cs with
  | [] => Some (EmptyString, s)
  | c :: cs' =>
      match s with
      | EmptyString => None
      | String x s' =>
          if c x then
            match match_classes cs' s' with
            | Some (m, r) => Some (String x m, r)
            | None => None
            end
          else None
      end
  end.

(** All the ways a directive matches at the start of [s], first
    alternative first. *)
Definition match_dir (d : directive) (s : string) : list (string * string) :=
  omap (fun cs => match_classes cs s) (alternatives d).

(** All the ways [\s+] matches at the start of [s], longest first: the
    rests of the data. *)
Fixpoint match_spaces (s : string) : list string :=
  match s with
  | EmptyString => []
  | String c s' => if isspace c then match_spaces s' ++ [s'] else []
  end.

(** The fields found so far, with the library's defaults. *)
Record found : Type := mkfound {
  f_year : Z; f_month : Z; f_day : Z;
  f_hour : Z; f_minute : Z; f_second : Z
}.

Definition defaults : found := mkfound 1900 1 1 0 0 0.

Fixpoint index_of (x : string) (l : list string) (i : Z) : Z :=
  match l with
  | [] => i
  | y :: l' => if String.eqb x y then i else index_of x l' (i + 1)
  end.

Definition set_field (d : directive) (text : string) (f : found) : found :=
  match d with
  | dir_b => mkfound (f_year f) (index_of (lower text) month_abbr 1) (f_day f)
                     (f_hour f) (f_minute f) (f_second f)
  | dir_m => mkfound (f_year f) (int_of text) (f_day f)
                     (f_hour f) (f_minute f) (f_second f)
  | dir_d => mkfound (f_year f) (f_month f) (int_of text)
                     (f_hour f) (f_minute f) (f_second f)
  | dir_H => mkfound (f_year f) (f_month f) (f_day f)
                     (int_of text) (f_minute f) (f_second f)
  | dir_M => mkfound (f_year f) (f_month f) (f_day f)
                     (f_hour f) (int_of text) (f_second f)
  | dir_S => mkfound (f_year f) (f_month f) (f_day f)
                     (f_hour f) (f_minute f) (int_of text)
  | dir_Y => mkfound (int_of text) (f_month f) (f_day f)
                     (f_hour f) (f_minute f) (f_second f)
  end.

(** All the matches of a format at the start of the data, in the order
    a backtracking matcher finds them: the fields and the data left. *)
Fixpoint match_items (fmt : list item) (s : string) (f : found)
  : list (found * string) :=
  match fmt with
  | [] => [(f, s)]
  | Lit c :: fmt' =>
      match s with
      | String x s' => if nocase c x then match_items fmt' s' f else []
      | EmptyString => []
      end
  | Spaces :: fmt' =>
      concat (map (fun r => match_items fmt' r f) (match_spaces s))
  | Dir d :: fmt' =>
      concat (map (fun '(text, r) => match_items fmt' r (set_field d text f))
                  (match_dir d s))
  end.

Definition to_datetime (f : found) : datetime :=
  mkdt (f_year f) (f_month f) (f_day f) (f_hour f) (f_minute f) (f_second f) 0.

Definition strptime (data : string) (fmt : list item) : outcome datetime :=
  match match_items fmt data defaults with
  | [] => Raise ValueError
  | (f, rest) :: _ =>
      match rest with
      | EmptyString =>
          if valid (to_datetime f) then Ret (to_datetime f)
          else Raise ValueError
      | _ => Raise ValueError
      end
  end.

(** ["%b %d %H:%M:%S %Y"] *)
Definition fmt_bdHMSY : list item :=
  [Dir dir_b; Spaces; Dir dir_d; Spaces;
   Dir dir_H; Lit ":"; Dir dir_M; Lit ":"; Dir dir_S; Spaces; Dir dir_Y]%char.

(** ["%Y-%m-%d %H:%M:%S"] *)
Definition fmt_YmdHMS : list item :=
  [Dir dir_Y; Lit "-"; Dir dir_m; Lit "-"; Dir dir_d; Spaces;
   Dir dir_H; Lit ":"; Dir dir_M; Lit ":"; Dir dir_S]%char.

End Strptime.

Import Strptime.

(* ===================================================================== *)
(** ** The world the program runs in *)
(* ===================================================================== *)

(** What a path names: a regular file (may it be read, may it be
    written, its text) or a directory. *)
Inductive node : Type :=
  | File (readable writable : bool) (content : string)
  | Directory.

(** [clock] gives the successive readings of the wall clock and [ticks]
    counts the readings made so far: the n-th call of [datetime.now()]
    returns [clock n].  [stdin] holds the lines still to be typed (without
    their newline), [stdout] the chunks written so far, oldest first. *)
Record World : Type := mkWorld {
  fs : gmap string node;
  cwd : string;
  stdin : list string;
  stdout : list string;
  clock : nat -> datetime;
  ticks : nat
}.

Definition set_fs (m : gmap string node) (w : World) : World :=
  mkWorld m (cwd w) (stdin w) (stdout w) (clock w) (ticks w).
Definition set_stdin (l : list string) (w : World) : World :=
  mkWorld (fs w) (cwd w) l (stdout w) (clock w) (ticks w).
Definition set_stdout (l : list string) (w : World) : World :=
  mkWorld (fs w) (cwd w) (stdin w) l (clock w) (ticks w).
Definition set_ticks (n : nat) (w : World) : World :=
  mkWorld (fs w) (cwd w) (stdin w) (stdout w) (clock w) n.

(** A computation: from a world to an outcome and the world left. *)
Definition M (A : Type) : Type := World -> outcome A * World.

Definition ret {A} (a : A) : M A := fun w => (Ret a, w).

Definition bind {A B} (m : M A) (k : A -> M B) : M B :=
  fun w =>
    match m w with
    | (Ret a, w') => k a w'
    | (Raise e, w') => (Raise e, w')
    end.

Definition raise {A} (e : exn) : M A := fun w => (Raise e, w).

(** [try: m  except e: h] *)
Definition try_except {A} (m : M A) (e : exn) (h : M A) : M A :=
  fun w =>
    match m w with
    | (Raise e', w') => if decide (e' = e) then h w' else (Raise e', w')
    | r => r
    end.

(** An expression that may raise but has no other effect. *)
Definition lift {A} (o : outcome A) : M A := fun w => (o, w).

Declare Scope py_scope.
Delimit Scope py_scope with py.
Notation "x <- m ;; k" := (bind m (fun x => k))
  (at level 100, m at next level, right associativity) : py_scope.
Notation "m ;; k" := (bind m (fun _ => k))
  (at level 100, right associativity) : py_scope.
Local Open Scope py_scope.

(** [for x in xs: body x] *)
Fixpoint for_each {A} (xs : list A) (body : A -> M unit) : M unit :=
  match xs with
  | [] => ret tt
  | x :: xs' => body x ;; for_each xs' body
  end.

(** *** Console *)

Definition LF : string := String NL EmptyString.

(** [print(s)] *)
Definition print (s : string) : M unit :=
  fun w => (Ret tt, set_stdout (stdout w ++ [s +:+ LF]) w).

(** [input(prompt)] *)
Definition input (prompt : string) : M string :=
  fun w =>
    let w1 := set_stdout (stdout w ++ [prompt]) w in
    match stdin w1 with
    | [] => (Raise EOFError, w1)
    | l :: ls => (Ret l, set_stdin ls w1)
    end.

(** [exit()] *)
Definition exit {A} : M A := raise SystemExit.

(** *** Clock *)

(** [datetime.datetime.now()] *)
Definition now : M datetime :=
  fun w => (Ret (clock w (ticks w)), set_ticks (S (ticks w)) w).

(** *** Files *)

(** [open(path, 'r')] followed by the iteration of the file: its lines. *)
Definition open_read (path : string) : M (list string) :=
  fun w =>
    match fs w !! path with
    | None => (Raise FileNotFoundError, w)
    | Some Directory => (Raise IsADirectoryError, w)
    | Some (File false _ _) => (Raise PermissionError, w)
    | Some (File true _ content) => (Ret (readlines content), w)
    end.

(** [open(path, 'a')]: the file is created empty when absent (its
    directory is taken to exist and to allow it); nothing is truncated. *)
Definition open_append (path : string) : M unit :=
  fun w =>
    match fs w !! path with
    | None => (Ret tt, set_fs (<[path := File true true EmptyString]> (fs w)) w)
    | Some Directory => (Raise IsADirectoryError, w)
    | Some (File _ false _) => (Raise PermissionError, w)
    | Some (File _ true _) => (Ret tt, w)
    end.

(** [file.write(text)] on a file opened for appending at [path] (the
    file exists: it was opened). *)
Definition write (path : string) (text : string) : M unit :=
  fun w =>
    match fs w !! path with
    | Some (File r wr content) =>
        (Ret tt, set_fs (<[path := File r wr (content +:+ text)]> (fs w)) w)
    | _ => (Ret tt, w)
    end.

(** [os.path.isfile(path)] *)
Definition isfile (path : string) : M bool :=
  fun w =>
    match fs w !! path with
    | Some (File _ _ _) => (Ret true, w)
    | _ => (Ret false, w)
    end.

(** [os.getcwd()] *)
Definition getcwd : M string := fun w => (Ret (cwd w), w).

(** [os.path.join(a, b)] (POSIX) *)
Definition path_join (a b : string) : string :=
  if startswith b "/" then b
  else if String.eqb a EmptyString || endswith a "/" then a +:+ b
  else a +:+ "/" +:+ b.

(* ===================================================================== *)
(** ** The program *)
(* ===================================================================== *)

Definition DQ : string := String "034"%char EmptyString.

(** Truth value of an optional string: [None] and [""] are false. *)
Definition truthy (keyword : option string) : bool :=
  match keyword with
  | Some (String _ _) => true
  | _ => false
  end.

(** [keyword not in line] for a keyword that is set. *)
Definition not_in (keyword : option string) (line : string) : bool :=
  match keyword with
  | Some k => negb (contains line k)
  | None => false
  end.

(** [bound and log_time < bound], [bound and log_time > bound]: a
    datetime is always true, [None] is false. *)
Definition before_bound (bound : option datetime) (log_time : datetime) : bool :=
  match bound with
  | Some b => ltb log_time b
  | None => false
  end.

Definition after_bound (bound : option datetime) (log_time : datetime) : bool :=
  match bound with
  | Some b => gtb log_time b
  | None => false
  end.

(** [extract_time], lines 29-42. *)
Definition extract_time (log_line : string) : M (option datetime) :=
  try_except
    (let parts := split log_line in
     if (length parts <? 3)%nat then ret None
     else
       let log_time := join " " (take 3 parts) in
       t <- now ;;
       let current_year := year t in
       d <- lift (strptime (log_time +:+ " " +:+ str_of_Z current_year)
                           fmt_bdHMSY) ;;
       ret (Some d))
    ValueError
    (ret None).

(** The body of the loop of [extract_log_entries], lines 13-22, as a
    function of the list built so far; [continue] leaves it as it is. *)
Definition loop_body (keyword : option string)
    (start_time end_time : option datetime)
    (line : string) (extracted_entries : list string) : M (list string) :=
  if truthy keyword && not_in keyword line then ret extracted_entries
  else if bool_decide (is_Some start_time) || bool_decide (is_Some end_time) then
    log_time <- extract_time line ;;
    match log_time with
    | Some t =>
        if before_bound start_time t then ret extracted_entries
        else if after_bound end_time t then ret extracted_entries
        else ret (extracted_entries ++ [strip line])
    | None => ret (extracted_entries ++ [strip line])
    end
  else ret (extracted_entries ++ [strip line]).

(** [for line in file: body], keeping the list built so far also when
    the body raises. *)
Fixpoint for_lines (body : string -> list string -> M (list string))
    (lines : list string) (acc : list string) (w : World)
  : list string * outcome unit * World :=
  match lines with
  | [] => (acc, Ret tt, w)
  | line :: rest =>
      match body line acc w with
      | (Ret acc', w') => for_lines body rest acc' w'
      | (Raise e, w') => (acc, Raise e, w')
      end
  end.

(** [extract_log_entries], lines 5-27. *)
Definition extract_log_entries (log_file : string) (keyword : option string)
    (start_time end_time : option datetime) : M (list string) :=
  fun w =>
    let '(extracted_entries, r, w1) :=
      match open_read log_file w with
      | (Ret lines, w0) =>
          for_lines (loop_body keyword start_time end_time) lines [] w0
      | (Raise e, w0) => ([], Raise e, w0)
      end in
    match r with
    | Ret _ => (Ret extracted_entries, w1)
    | Raise FileNotFoundError =>
        (print ("Log file " +:+ log_file +:+ " not found.") ;;
         ret extracted_entries) w1
    | Raise PermissionError =>
        (print ("Permission denied. Please check your permissions for "
                +:+ log_file +:+ ".") ;;
         ret extracted_entries) w1
    | Raise e => (Raise e, w1)
    end.

(** [ensure_log_extension], lines 44-48. *)
Definition ensure_log_extension (file_name : string) : string :=
  if endswith file_name ".log" then file_name else file_name +:+ ".log".

(** [get_log_file_path], lines 50-74. *)
Definition get_log_file_path : M string :=
  use_syslog_dir <- input "Do you want to check the default syslog directory (/var/log/)? (y/n): " ;;
  let use_syslog_dir := lower (strip use_syslog_dir) in
  found_default <-
    (if String.eqb use_syslog_dir "y" then
       let syslog_path := "/var/log/syslog" in
       is_file <- isfile syslog_path ;;
       if is_file then
         print ("Default log file found: " +:+ syslog_path) ;;
         ret (Some syslog_path)
       else
         print "No syslog file found in /var/log/." ;;
         ret None
     else ret None) ;;
  match found_default with
  | Some syslog_path => ret syslog_path
  | None =>
      use_custom_dir <- input "Do you want to specify a custom directory? (y/n): " ;;
      let use_custom_dir := lower (strip use_custom_dir) in
      if String.eqb use_custom_dir "y" then
        custom_dir <- input "Enter the custom directory path (leave blank for current directory): " ;;
        let custom_dir := strip custom_dir in
        custom_dir <- (if String.eqb custom_dir EmptyString then getcwd
                       else ret custom_dir) ;;
        log_file_name <- input "Enter the log file name: " ;;
        let log_file_name := strip log_file_name in
        ret (path_join custom_dir (ensure_log_extension log_file_name))
      else
        print "No valid log file found or specified. Exiting." ;;
        exit
  end.

(** One record of the CSV file: both fields between double quotes, a
    comma between them, a newline at the end. *)
Definition csv_record (timestamp entry : string) : string :=
  DQ +:+ timestamp +:+ DQ +:+ "," +:+ DQ +:+ entry +:+ DQ +:+ LF.

(** [save_to_csv], lines 76-83. *)
Definition save_to_csv (entries : list string) (output_file : string) : M unit :=
  t <- now ;;
  let timestamp := strftime t "%Y-%m-%d %H:%M:%S" in
  open_append output_file ;;
  for_each entries (fun entry => write output_file (csv_record timestamp entry)).

(** [main], lines 86-100: the prompts, up to the filter criteria. *)
Definition read_criteria
  : M (string * option string * option datetime * option datetime) :=
  print "=== Log Parser ===" ;;
  log_file <- get_log_file_path ;;
  keyword <- input "Enter a keyword to filter logs (leave blank for all entries): " ;;
  let keyword := strip keyword in
  start_time_str <- input "Enter start time (YYYY-MM-DD HH:MM:SS) or leave blank: " ;;
  let start_time_str := strip start_time_str in
  end_time_str <- input "Enter end time (YYYY-MM-DD HH:MM:SS) or leave blank: " ;;
  let end_time_str := strip end_time_str in
  start_time <-
    (if negb (String.eqb start_time_str EmptyString)
     then d <- lift (strptime start_time_str fmt_YmdHMS) ;; ret (Some d)
     else ret None) ;;
  end_time <-
    (if negb (String.eqb end_time_str EmptyString)
     then d <- lift (strptime end_time_str fmt_YmdHMS) ;; ret (Some d)
     else ret None) ;;
  ret (log_file, Some keyword, start_time, end_time).

(** [main], lines 104-112: what is done with the entries found. *)
Definition report (log_entries : list string) : M unit :=
  match log_entries with
  | _ :: _ =>
      print ("Found " +:+ str_of_Z (Z.of_nat (length log_entries))
             +:+ " entries matching your criteria.") ;;
      save_to_csv log_entries "parsed_log.csv" ;;
      print "Entries successfully saved to parsed_log.csv." ;;
      print (LF +:+ "Summary of appended entries:") ;;
      for_each (take 5 log_entries) (fun entry => print (" - " +:+ entry))
  | [] => print "No matching log entries found."
  end.

(** [main], lines 85-112. *)
Definition main : M unit :=
  criteria <- read_criteria ;;
  let '(log_file, keyword, start_time, end_time) := criteria in
  log_entries <- extract_log_entries log_file keyword start_time end_time ;;
  report log_entries.

(* ===================================================================== *)
(** ** The terms in which the properties are stated *)
(* ===================================================================== *)

(** The text handed to [strptime]: the first three tokens and the year. *)
Definition stamp_text (log_line : string) (current_year : Z) : string :=
  join " " (take 3 (split log_line)) +:+ " " +:+ str_of_Z current_year.

(** What [extract_time] returns when the clock reads the year [y]. *)
Definition parsed_stamp (log_line : string) (y : Z) : option datetime :=
  if (length (split log_line) <? 3)%nat then None
  else match strptime (stamp_text log_line y) fmt_bdHMSY with
       | Ret d => Some d
       | Raise _ => None
       end.

(** The clock is read when there are three tokens, and only then. *)
Definition after_stamp (log_line : string) (w : World) : World :=
  if (length (split log_line) <? 3)%nat then w
  else set_ticks (S (ticks w)) w.

(** *** One turn of the filter loop *)

Section FilterTerms.

Variables (keyword : option string) (start_time end_time : option datetime).

(** The keyword stage lets the line through. *)
Definition keyword_ok (line : string) : Prop :=
  truthy keyword && not_in keyword line = false.

(** The line is kept: the turn ends with its stripped text appended. *)
Definition retained (line : string) (acc : list string) (w : World) : Prop :=
  (loop_body keyword start_time end_time line acc w).1 = Ret (acc ++ [strip line]).

(** The line is dropped: the turn ends with the list as it was. *)
Definition discarded (line : string) (acc : list string) (w : World) : Prop :=
  (loop_body keyword start_time end_time line acc w).1 = Ret acc.

(** [t] is within the bounds that are set, the bounds included. *)
Definition within (t : datetime) : Prop :=
  (forall s, start_time = Some s -> at_or_before s t) /\
  (forall e, end_time = Some e -> at_or_before t e).

(** What a turn does, the time stage written with the year the clock
    reads: the decision, and the world it leaves. *)
Definition time_ok (line : string) (y : Z) : bool :=
  match parsed_stamp line y with
  | Some t => negb (before_bound start_time t) && negb (after_bound end_time t)
  | None => true
  end.

Definition timed : bool :=
  bool_decide (is_Some start_time) || bool_decide (is_Some end_time).

Definition keeps (line : string) (w : World) : bool :=
  negb (truthy keyword && not_in keyword line) &&
  (negb timed || time_ok line (year (clock w (ticks w)))).

Definition reads_clock (line : string) : bool :=
  negb (truthy keyword && not_in keyword line) && timed &&
  negb (length (split line) <? 3)%nat.

End FilterTerms.

(** [w'] is [w] after some readings of the clock, and nothing else. *)
Definition during (w w' : World) : Prop :=
  fs w' = fs w /\ cwd w' = cwd w /\ stdin w' = stdin w /\
  stdout w' = stdout w /\ clock w' = clock w /\ (ticks w <= ticks w')%nat.

(** The console message for a log file that cannot be opened: one text
    when nothing is at the path, another when something is. *)
Definition open_failure_message (log_file : string) (at_path : option node)
  : string :=
  match at_path with
  | None => ("Log file " +:+ log_file +:+ " not found.") +:+ LF
  | Some _ => ("Permission denied. Please check your permissions for "
               +:+ log_file +:+ ".") +:+ LF
  end.

(** The file at [path] can be opened for appending: nothing is there
    yet, or a regular file that may be written. *)
Definition can_append (path : string) (w : World) : bool :=
  match fs w !! path with
  | None => true
  | Some (File _ wr _) => wr
  | Some Directory => false
  end.

(** The text of the file at [path]; empty when nothing is there. *)
Definition text_at (path : string) (w : World) : string :=
  match fs w !! path with
  | Some (File _ _ content) => content
  | _ => EmptyString
  end.

Definition readable_at (path : string) (w : World) : bool :=
  match fs w !! path with
  | Some (File r _ _) => r
  | _ => true
  end.

(** The texts of a list, one after the other. *)
Definition joined (l : list string) : string :=
  foldr String.append EmptyString l.

(** The file system after [text] was added at the end of [path]. *)
Definition appended (path text : string) (w : World) : gmap string node :=
  <[path := File (readable_at path w) true (text_at path w +:+ text)]> (fs w).

(** [YYYY-MM-DD HH:MM:SS]: digits, with the separators in their places,
    and nothing else. *)
Definition iso_pattern : list cls :=
  [isdigit; isdigit; isdigit; isdigit; one "-"; isdigit; isdigit; one "-";
   isdigit; isdigit; one " "; isdigit; isdigit; one ":"; isdigit; isdigit;
   one ":"; isdigit; isdigit]%char.

Definition iso_shaped (s : string) : bool :=
  match match_classes iso_pattern s with
  | Some (_, EmptyString) => true
  | _ => false
  end.

Definition two_digits (s : string) : bool :=
  match s with
  | String a (String b EmptyString) => isdigit a && isdigit b
  | _ => false
  end.

Definition four_digits (s : string) : bool :=
  match s with
  | String a (String b (String c (String d EmptyString))) =>
      isdigit a && isdigit b && isdigit c && isdigit d
  | _ => false
  end.

(** The computation changes no file, however it ends. *)
Definition keeps_fs {A} (m : M A) : Prop := forall w, fs (m w).2 = fs w.

(** The lines of the console that [report] writes for a list of entries
    that is not empty. *)
Definition summary (log_entries : list string) : list string :=
  [("Found " +:+ str_of_Z (Z.of_nat (length log_entries))
    +:+ " entries matching your criteria.") +:+ LF;
   "Entries successfully saved to parsed_log.csv." +:+ LF;
   (LF +:+ "Summary of appended entries:") +:+ LF]
  ++ map (fun entry => (" - " +:+ entry) +:+ LF) (take 5 log_entries).

(** Whenever the computation returns a value, the value satisfies [Q]. *)
Definition ensures {A} (m : M A) (Q : A -> Prop) : Prop :=
  forall w a w', m w = (Ret a, w') -> Q a.

(** The two questions of [get_log_file_path]. *)
Definition ask_default : string :=
  "Do you want to check the default syslog directory (/var/log/)? (y/n): ".

Definition ask_custom : string :=
  "Do you want to specify a custom directory? (y/n): ".

(** The answer counts as a yes: a [y], in either case, white space around
    it aside. *)
Definition says_yes (answer : string) : bool :=
  String.eqb (lower (strip answer)) "y".

(** The line passes both stages of the filter when the clock reads the
    year [y]. *)
Definition passes (keyword : option string)
    (start_time end_time : option datetime) (y : Z) (line : string) : bool :=
  negb (truthy keyword && not_in keyword line) &&
  (negb (timed start_time end_time) || time_ok start_time end_time line y).

(** The line passes the keyword stage. *)
Definition has_keyword (keyword : option string) (line : string) : bool :=
  negb (truthy keyword && not_in keyword line).

(** The three questions of [main]. *)
Definition ask_keyword : string :=
  "Enter a keyword to filter logs (leave blank for all entries): ".

Definition ask_start : string :=
  "Enter start time (YYYY-MM-DD HH:MM:SS) or leave blank: ".

Definition ask_end : string :=
  "Enter end time (YYYY-MM-DD HH:MM:SS) or leave blank: ".

(** What was typed for a bound is not blank and is no time in the format
    ["%Y-%m-%d %H:%M:%S"]. *)
Definition malformed (typed : string) : bool :=
  negb (String.eqb (strip typed) EmptyString) &&
  match strptime (strip typed) fmt_YmdHMS with
  | Ret _ => false
  | Raise _ => true
  end.

(** The world once [main] has written its banner. *)
Definition after_banner (w : World) : World :=
  set_stdout (stdout w ++ ["=== Log Parser ===" +:+ LF]) w.

(** The first line [report] writes for a list of entries. *)
Definition found_line (log_entries : list string) : string :=
  ("Found " +:+ str_of_Z (Z.of_nat (length log_entries))
   +:+ " entries matching your criteria.") +:+ LF.

(** The first match of the format [fmt] on the data [s] is [x]. *)
Definition first_match (fmt : list item) (s : string) (f : found)
    (x : found * string) : Prop :=
  exists others, match_items fmt s f = x :: others.

(** The directive [dr] reads back the number [v] written on [width]
    digits: its first match is the whole text, and the text is [v]. *)
Definition reads_back (dr : directive) (width : nat) (v : Z) : bool :=
  let t := zfill width v in
  (String.length t =? width)%nat &&
  match match_dir dr t with
  | (t', EmptyString) :: _ => String.eqb t' t
  | _ => false
  end &&
  (int_of t =? v).

(** The text of the year [n] has four characters and reads back as [n]
    (or [n] is below 1000). *)
Definition year_text_ok (n : Z) : bool :=
  (n <? 1000) ||
  ((int_of (str_of_Z n) =? n) && (String.length (str_of_Z n) =? 4)%nat).

(** *** Sample inputs *)

Module Samples.

Definition login_line : string :=
  "Nov 26 14:29:50 server sshd: Failed login" +:+ LF.

Definition short_line : string := "garbage short" +:+ LF.

Definition late_line : string :=
  "  Nov 27 01:00:00 host cron: Failed again  " +:+ LF.

Definition log_text : string := login_line +:+ short_line +:+ late_line.

(** A clock that stands in November 2026. *)
Definition a_clock (n : nat) : datetime :=
  mkdt 2026 11 4 10 0 (Z.of_nat n) 123.

Definition files : gmap string node :=
  <["/home/op/auth.log" := File true true log_text]>
    (<["/home/op/secret.log" := File false true log_text]>
       (<["parsed_log.csv" := File true true ("kept" +:+ LF)]> ∅)).

Definition a_world (typed : list string) : World :=
  mkWorld files "/home/op" typed [] a_clock 0.

Definition idle : World := a_world [].

Definition stamp : datetime := mkdt 2026 11 26 14 29 50 0.
Definition midnight : datetime := mkdt 2026 11 26 0 0 0 0.

(** What the operator types: no default path, a custom directory left
    blank, the name of the file, the keyword, the two bounds. *)
Definition typed_auth : list string :=
  ["n"; " Y "; ""; "auth"; "Failed"; "2026-11-26 00:00:00"; "2026-11-27 23:59:59"].

Definition typed_missing : list string :=
  ["n"; "y"; ""; "nope"; ""; ""; ""].

Definition after_prompts (typed : list string) : World :=
  (read_criteria (a_world typed)).2.

Definition after_filter (typed : list string) (log_file : string)
    (keyword : option string) (start_time end_time : option datetime) : World :=
  (extract_log_entries log_file keyword start_time end_time
     (after_prompts typed)).2.

End Samples.

Import Samples.

Module MoreSamples.

(** The sample files, with a default log file, a directory and an output
    file that may not be written. *)
Definition more_files : gmap string node :=
  <["/var/log/syslog" := File true false log_text]>
    (<["/home/op/logs" := Directory]>
       (<["locked.csv" := File true false ("kept" +:+ LF)]> files)).

Definition wide_world (typed : list string) : World :=
  mkWorld more_files "/home/op" typed [] a_clock 0.

(** The sample files, with an output file that may not be written. *)
Definition locked_files : gmap string node :=
  <["parsed_log.csv" := File true false ("kept" +:+ LF)]> files.

Definition locked_world (typed : list string) : World :=
  mkWorld locked_files "/home/op" typed [] a_clock 0.

Definition typed_bad_start : list string :=
  ["n"; "y"; ""; "auth"; "Failed"; "26/11/2026"; ""; "left"].

End MoreSamples.

Import MoreSamples.

(* ===================================================================== *)
(** ** Properties of the text operations *)
(* ===================================================================== *)

Section TextFacts.

Lemma app_cons (c : ascii) (s t : string) :
  String c s +:+ t = String c (s +:+ t).
Proof. reflexivity. Qed.

Lemma app_empty_l (s : string) : EmptyString +:+ s = s.
Proof. reflexivity. Qed.

Lemma app_empty_r (s : string) : s +:+ EmptyString = s.
Proof. induction s as [|c s IH]; [reflexivity|]. now rewrite app_cons, IH. Qed.

Lemma app_assoc_str (s t u : string) : (s +:+ t) +:+ u = s +:+ (t +:+ u).
Proof.
  induction s as [|c s IH]; [reflexivity|]. now rewrite !app_cons, IH.
Qed.

Lemma length_app_str (s t : string) :
  String.length (s +:+ t) = (String.length s + String.length t)%nat.
Proof.
  induction s as [|c s IH]; [reflexivity|].
  rewrite app_cons. cbn [String.length]. now rewrite IH.
Qed.

(** [startswith] decides "[p] is a prefix of [s]". *)
Lemma startswith_spec (s p : string) :
  startswith s p = true <-> exists post, s = p +:+ post.
Proof.
  revert s. induction p as [|a p IH]; intros s; cbn [startswith].
  - split; [intros _; now exists s | reflexivity].
  - destruct s as [|b s].
    + split; [discriminate | intros [post H]; discriminate].
    + rewrite andb_true_iff, Ascii.eqb_eq, IH. split.
      * intros [-> [post ->]]. now exists post.
      * intros [post H]. rewrite app_cons in H. injection H as -> ->. eauto.
Qed.

(** [contains] decides "[k] occurs in [s]": the characters of [k], the
    same ones in the same case, stand side by side somewhere in [s]. *)
Lemma contains_spec (s k : string) :
  contains s k = true <-> exists pre post, s = pre +:+ k +:+ post.
Proof.
  induction s as [|c s IH]; cbn [contains]; rewrite orb_true_iff.
  - rewrite startswith_spec. split.
    + intros [[post H]|H]; [|discriminate]. now exists EmptyString, post.
    + intros [pre [post H]]. left. destruct pre; [now exists post|discriminate].
  - rewrite startswith_spec, IH. split.
    + intros [[post H]|[pre [post H]]].
      * now exists EmptyString, post.
      * exists (String c pre), post. now rewrite app_cons, H.
    + intros [pre [post H]]. destruct pre as [|c' pre].
      * left. now exists post.
      * right. rewrite app_cons in H. injection H as _ ->. now exists pre, post.
Qed.

Lemma contains_empty (s : string) : contains s EmptyString = true.
Proof. destruct s; reflexivity. Qed.

Lemma substring_app_suffix (s t : string) :
  String.substring (String.length s) (String.length t) (s +:+ t) = t.
Proof.
  induction s as [|c s IH].
  - rewrite app_empty_l. cbn [String.length].
    induction t as [|c t IHt]; [reflexivity|].
    cbn [String.length String.substring]. now rewrite IHt.
  - rewrite app_cons. cbn [String.length String.substring]. exact IH.
Qed.

(** A string that was given a suffix ends with it. *)
Lemma endswith_app (s suf : string) : endswith (s +:+ suf) suf = true.
Proof.
  unfold endswith. rewrite length_app_str.
  apply andb_true_iff; split.
  - apply Nat.leb_le. lia.
  - replace (String.length s + String.length suf - String.length suf)%nat
      with (String.length s) by lia.
    rewrite substring_app_suffix. apply String.eqb_refl.
Qed.

End TextFacts.

(* ===================================================================== *)
(** ** Properties of the order on datetimes *)
(* ===================================================================== *)

Section DatetimeFacts.

Lemma fields_inj (a b : datetime) : fields a = fields b -> a = b.
Proof.
  destruct a, b; unfold fields; cbn. intros H.
  injection H as -> -> -> -> -> -> ->. reflexivity.
Qed.

Lemma lex_compare_lt (xs ys : list Z) :
  lex_compare xs ys = Lt <-> lex_lt xs ys.
Proof.
  revert ys. induction xs as [|x xs IH]; intros [|y ys]; cbn;
    try (split; [discriminate | tauto]).
  destruct (Z.compare_spec x y) as [->|Hlt|Hgt].
  - rewrite IH. split; [intros H; right; tauto | intros [H|[_ H]]; [lia | exact H]].
  - split; [intros _; now left | reflexivity].
  - split; [discriminate | intros [H|[H _]]; lia].
Qed.

Lemma lex_compare_gt (xs ys : list Z) :
  lex_compare xs ys = Gt <-> lex_lt ys xs.
Proof.
  revert ys. induction xs as [|x xs IH]; intros [|y ys]; cbn;
    try (split; [discriminate | tauto]).
  destruct (Z.compare_spec x y) as [->|Hlt|Hgt].
  - rewrite IH. split; [intros H; right; tauto | intros [H|[_ H]]; [lia | exact H]].
  - split; [discriminate | intros [H|[H _]]; lia].
  - split; [intros _; now left | reflexivity].
Qed.

Lemma lex_compare_eq (xs ys : list Z) :
  length xs = length ys -> lex_compare xs ys = Eq <-> xs = ys.
Proof.
  revert ys. induction xs as [|x xs IH]; intros [|y ys]; cbn;
    try discriminate; [tauto|].
  intros Hlen. injection Hlen as Hlen.
  destruct (Z.compare_spec x y) as [->|Hlt|Hgt].
  - rewrite (IH _ Hlen). split; [now intros -> | now intros [= ->]].
  - split; [discriminate | intros [= -> _]; lia].
  - split; [discriminate | intros [= -> _]; lia].
Qed.

Lemma compare_lt (a b : datetime) : compare a b = Lt <-> earlier a b.
Proof. apply lex_compare_lt. Qed.

Lemma compare_gt (a b : datetime) : compare a b = Gt <-> earlier b a.
Proof. apply lex_compare_gt. Qed.

Lemma compare_eq (a b : datetime) : compare a b = Eq <-> a = b.
Proof.
  unfold compare. rewrite lex_compare_eq by reflexivity.
  split; [apply fields_inj | now intros ->].
Qed.

(** [not (t < s)] is "[s] is at or before [t]". *)
Lemma ltb_false (t s : datetime) : ltb t s = false <-> at_or_before s t.
Proof.
  unfold ltb, at_or_before. destruct (compare t s) eqn:E.
  - apply compare_eq in E as ->. split; [now right | reflexivity].
  - split; [discriminate|]. intros [H| ->].
    + apply compare_gt in H. congruence.
    + assert (compare t t = Eq) by now apply compare_eq. congruence.
  - apply compare_gt in E. split; [now left | reflexivity].
Qed.

(** [not (t > e)] is "[t] is at or before [e]". *)
Lemma gtb_false (t e : datetime) : gtb t e = false <-> at_or_before t e.
Proof.
  unfold gtb, at_or_before. destruct (compare t e) eqn:E.
  - apply compare_eq in E as ->. split; [now right | reflexivity].
  - apply compare_lt in E. split; [now left | reflexivity].
  - split; [discriminate|]. intros [H| ->].
    + apply compare_lt in H. congruence.
    + assert (compare e e = Eq) by now apply compare_eq. congruence.
Qed.

End DatetimeFacts.

(* ===================================================================== *)
(** ** The timestamp extractor *)
(* ===================================================================== *)

Section ExtractTime.

(** [strptime] fails with [ValueError] and nothing else. *)
Lemma strptime_raises (data : string) (fmt : list item) (e : exn) :
  strptime data fmt = Raise e -> e = ValueError.
Proof.
  unfold strptime.
  destruct (match_items fmt data defaults) as [|[f rest] ms]; [congruence|].
  destruct rest; [|congruence].
  destruct (valid (to_datetime f)); congruence.
Qed.

(** What [strptime] returns passed the range checks of the constructor,
    and has no fraction of a second. *)
Lemma strptime_valid (data : string) (fmt : list item) (d : datetime) :
  strptime data fmt = Ret d -> valid d = true /\ microsecond d = 0.
Proof.
  unfold strptime.
  destruct (match_items fmt data defaults) as [|[f rest] ms]; [congruence|].
  destruct rest; [|congruence].
  destruct (valid (to_datetime f)) eqn:E; [|congruence].
  intros [= <-]. split; [exact E | reflexivity].
Qed.

Lemma extract_time_run (log_line : string) (w : World) :
  extract_time log_line w =
    (Ret (parsed_stamp log_line (year (clock w (ticks w)))),
     after_stamp log_line w).
Proof.
  unfold extract_time, try_except, parsed_stamp, after_stamp, stamp_text.
  destruct (length (split log_line) <? 3)%nat; [reflexivity|].
  unfold bind, now, lift, ret.
  destruct (strptime _ fmt_bdHMSY) as [d|e] eqn:E; [reflexivity|].
  apply strptime_raises in E as ->. reflexivity.
Qed.

End ExtractTime.

(** C4. [extract_time] returns on every line and in every world, and
    never raises: with fewer than three white-space separated tokens the
    result is [None]; otherwise the first three tokens, joined by single
    spaces and followed by the year the clock reads at the call, are parsed
    with ["%b %d %H:%M:%S %Y"], and a failure to parse gives [None]. *)
Theorem extract_time_total (log_line : string) (w : World) :
  exists (r : option datetime) (w' : World),
    extract_time log_line w = (Ret r, w') /\
    r = (if (length (split log_line) <? 3)%nat then None
         else match strptime (join " " (take 3 (split log_line)) +:+ " "
                              +:+ str_of_Z (year (clock w (ticks w))))
                             fmt_bdHMSY with
              | Ret d => Some d
              | Raise _ => None
              end).
Proof.
  rewrite extract_time_run. eexists _, _. split; reflexivity.
Qed.

(* ===================================================================== *)
(** ** One turn of the filter loop *)
(* ===================================================================== *)

Section LoopBody.

Variables (keyword : option string) (start_time end_time : option datetime).

Lemma before_bound_false (t : datetime) :
  before_bound start_time t = false <->
  (forall s, start_time = Some s -> at_or_before s t).
Proof.
  unfold before_bound. destruct start_time as [s|].
  - rewrite ltb_false. split; [now intros H ? [= <-] | eauto].
  - split; [discriminate | reflexivity].
Qed.

Lemma after_bound_false (t : datetime) :
  after_bound end_time t = false <->
  (forall e, end_time = Some e -> at_or_before t e).
Proof.
  unfold after_bound. destruct end_time as [e|].
  - rewrite gtb_false. split; [now intros H ? [= <-] | eauto].
  - split; [discriminate | reflexivity].
Qed.

Lemma snoc_neq {A} (l : list A) (x : A) : l ++ [x] <> l.
Proof.
  intros H. apply (f_equal length) in H. rewrite length_app in H.
  cbn in H. lia.
Qed.

Lemma loop_body_run (line : string) (acc : list string) (w : World) :
  loop_body keyword start_time end_time line acc w =
    (Ret (if keeps keyword start_time end_time line w
          then acc ++ [strip line] else acc),
     if reads_clock keyword start_time end_time line
     then set_ticks (S (ticks w)) w else w).
Proof.
  unfold loop_body, keeps, reads_clock, timed, time_ok.
  destruct (truthy keyword && not_in keyword line); [reflexivity|].
  destruct (bool_decide (is_Some start_time) || bool_decide (is_Some end_time));
    [|reflexivity].
  unfold bind. rewrite extract_time_run. unfold after_stamp.
  destruct (parsed_stamp line _) as [t|];
    [destruct (before_bound start_time t);
     [|destruct (after_bound end_time t)]|];
    destruct (length (split line) <? 3)%nat; reflexivity.
Qed.

End LoopBody.

Section LoopBodyFacts.

Variables (keyword : option string) (start_time end_time : option datetime).

Lemma retained_iff (line : string) (acc : list string) (w : World) :
  retained keyword start_time end_time line acc w <->
  keeps keyword start_time end_time line w = true.
Proof.
  unfold retained. rewrite loop_body_run. cbn [fst].
  destruct (keeps _ _ _ _ _); split; try reflexivity; try discriminate.
  intros [= H]. symmetry in H. now apply snoc_neq in H.
Qed.

Lemma discarded_iff (line : string) (acc : list string) (w : World) :
  discarded keyword start_time end_time line acc w <->
  keeps keyword start_time end_time line w = false.
Proof.
  unfold discarded. rewrite loop_body_run. cbn [fst].
  destruct (keeps _ _ _ _ _); split; try reflexivity; try discriminate.
  intros [= H]. now apply snoc_neq in H.
Qed.

Lemma within_iff (t : datetime) :
  within start_time end_time t <->
  negb (before_bound start_time t) && negb (after_bound end_time t) = true.
Proof.
  unfold within.
  rewrite andb_true_iff, !negb_true_iff, before_bound_false, after_bound_false.
  reflexivity.
Qed.

Lemma not_timed_within (t : datetime) :
  timed start_time end_time = false -> within start_time end_time t.
Proof.
  unfold timed, within. intros H. apply orb_false_iff in H as [Hs He].
  apply bool_decide_eq_false in Hs, He.
  split; intros x Hx; [destruct Hs | destruct He]; rewrite Hx; eauto.
Qed.

Lemma keyword_ok_absent (line : string) :
  keyword = None \/ keyword = Some EmptyString -> keyword_ok keyword line.
Proof. unfold keyword_ok. now intros [-> | ->]. Qed.

Lemma keyword_ok_inv (line : string) :
  keyword_ok keyword line ->
  keyword = None \/ keyword = Some EmptyString \/
  exists k pre post, keyword = Some k /\ line = pre +:+ k +:+ post.
Proof.
  unfold keyword_ok, truthy, not_in.
  destruct keyword as [[|c k]|]; [tauto| |tauto].
  cbn [andb]. intros H. apply negb_false_iff, contains_spec in H.
  destruct H as (pre & post & H). right; right. eauto.
Qed.

End LoopBodyFacts.

(** C1. On a line from which [extract_time] gets a timestamp [T], and
    which the keyword stage lets through, the line is kept exactly when [T]
    is within the bounds that are set, both bounds included: a start bound
    that is set is at or before [T], and [T] is at or before an end bound
    that is set.  Otherwise the line is dropped. *)
Theorem time_filter_inclusive
    (keyword : option string) (start_time end_time : option datetime)
    (line : string) (acc : list string) (w w1 : World) (T : datetime) :
  extract_time line w = (Ret (Some T), w1) ->
  keyword_ok keyword line ->
  (retained keyword start_time end_time line acc w
     <-> within start_time end_time T) /\
  (discarded keyword start_time end_time line acc w
     <-> ~ within start_time end_time T).
Proof.
  rewrite extract_time_run. intros [= HT _] Hk.
  rewrite retained_iff, discarded_iff.
  assert (Hkeeps : keeps keyword start_time end_time line w = true
                   <-> within start_time end_time T).
  { unfold keeps, time_ok. rewrite HT. unfold keyword_ok in Hk. rewrite Hk.
    cbn [negb andb]. rewrite within_iff.
    destruct (timed start_time end_time) eqn:Ht; cbn [negb orb]; [reflexivity|].
    apply (not_timed_within _ _ T), within_iff in Ht. rewrite Ht. tauto. }
  split; [exact Hkeeps|].
  rewrite <- Hkeeps. destruct (keeps _ _ _ _ _); split; congruence.
Qed.

(** C2. On a line from which [extract_time] gets no timestamp, the time
    stage drops nothing, whatever the bounds: the line is kept exactly when
    the keyword stage lets it through. *)
Theorem no_timestamp_passes
    (keyword : option string) (start_time end_time : option datetime)
    (line : string) (acc : list string) (w w1 : World) :
  extract_time line w = (Ret None, w1) ->
  (retained keyword start_time end_time line acc w <-> keyword_ok keyword line).
Proof.
  rewrite extract_time_run. intros [= HT _].
  rewrite retained_iff. unfold keeps, time_ok, keyword_ok. rewrite HT.
  rewrite orb_true_r, andb_true_r, negb_true_iff. reflexivity.
Qed.

(** C3. A line is kept only if the keyword is absent or empty, or occurs
    in the line as it stands, character for character; and an absent or
    empty keyword lets every line through the keyword stage. *)
Theorem keyword_filter
    (keyword : option string) (start_time end_time : option datetime)
    (line : string) (acc : list string) (w : World) :
  (retained keyword start_time end_time line acc w ->
     keyword = None \/ keyword = Some EmptyString \/
     exists k pre post, keyword = Some k /\ line = pre +:+ k +:+ post) /\
  (keyword = None \/ keyword = Some EmptyString -> keyword_ok keyword line).
Proof.
  split; [|apply keyword_ok_absent].
  rewrite retained_iff. unfold keeps. intros H.
  apply andb_true_iff in H as [H _]. apply negb_true_iff in H.
  now apply keyword_ok_inv.
Qed.

(* ===================================================================== *)
(** ** The entry filter *)
(* ===================================================================== *)

Section EntryFilter.

Variables (keyword : option string) (start_time end_time : option datetime).

Lemma during_refl (w : World) : during w w.
Proof. unfold during. auto 10. Qed.

Lemma during_trans (w1 w2 w3 : World) :
  during w1 w2 -> during w2 w3 -> during w1 w3.
Proof.
  unfold during. intros (-> & -> & -> & -> & -> & H1) (-> & -> & -> & -> & -> & H2).
  repeat split; lia.
Qed.

Lemma during_tick (w : World) : during w (set_ticks (S (ticks w)) w).
Proof. unfold during. cbn. repeat split; lia. Qed.

Lemma during_turn (line : string) (w : World) :
  during w (if reads_clock keyword start_time end_time line
            then set_ticks (S (ticks w)) w else w).
Proof. destruct (reads_clock _ _ _ _); [apply during_tick | apply during_refl]. Qed.

(** The loop ends normally; what it has added to the list are the
    stripped texts of some of the lines, in the order of the lines, each
    of them kept by its turn of the loop. *)
Lemma for_lines_run (lines : list string) :
  forall (acc : list string) (w : World),
  exists (kept : list string) (w' : World),
    for_lines (loop_body keyword start_time end_time) lines acc w
      = (acc ++ (strip <$> kept), Ret tt, w') /\
    sublist kept lines /\
    Forall (fun l => exists wl,
              during w wl /\ retained keyword start_time end_time l [] wl) kept /\
    during w w'.
Proof.
  induction lines as [|line rest IH]; intros acc w.
  - exists [], w. cbn. rewrite app_nil_r.
    refine (conj eq_refl (conj _ (conj _ _)));
      [constructor | constructor | apply during_refl].
  - cbn [for_lines]. rewrite loop_body_run.
    pose proof (during_turn line w) as Hturn.
    set (w1 := if reads_clock _ _ _ _ then _ else w) in *.
    assert (Hlater : forall kept,
      Forall (fun l => exists wl,
        during w1 wl /\ retained keyword start_time end_time l [] wl) kept ->
      Forall (fun l => exists wl,
        during w wl /\ retained keyword start_time end_time l [] wl) kept).
    { intros kept Hall. eapply Forall_impl; [exact Hall|]. cbn.
      intros l (wl & Hwl & Hret). exists wl. split; [|exact Hret].
      eapply during_trans; eauto. }
    destruct (keeps keyword start_time end_time line w) eqn:Hk.
    + destruct (IH (acc ++ [strip line]) w1) as (kept & w' & -> & Hsub & Hall & Hd).
      exists (line :: kept), w'.
      refine (conj _ (conj _ (conj _ _))).
      * now rewrite fmap_cons, <- app_assoc.
      * now constructor.
      * constructor; [|now apply Hlater].
        exists w. split; [apply during_refl | now apply retained_iff].
      * eapply during_trans; eauto.
    + destruct (IH acc w1) as (kept & w' & -> & Hsub & Hall & Hd).
      exists kept, w'.
      refine (conj eq_refl (conj _ (conj _ _))).
      * now constructor.
      * now apply Hlater.
      * eapply during_trans; eauto.
Qed.

Lemma extract_log_entries_readable
    (log_file : string) (w : World) (wr : bool) (content : string) :
  fs w !! log_file = Some (File true wr content) ->
  extract_log_entries log_file keyword start_time end_time w =
    let '(entries, _, w') :=
      for_lines (loop_body keyword start_time end_time)
                (readlines content) [] w in
    (Ret entries, w').
Proof.
  intros H. unfold extract_log_entries, open_read. rewrite H.
  destruct (for_lines_run (readlines content) [] w) as (kept & w' & -> & _).
  reflexivity.
Qed.

End EntryFilter.

(** C5. When the log file is missing, or is there but may not be read,
    [extract_log_entries] does not raise: it writes the message of that
    condition on the console, returns the empty list, and changes nothing
    else in the world. *)
Theorem extract_log_entries_unopenable
    (log_file : string) (keyword : option string)
    (start_time end_time : option datetime) (w : World) :
  fs w !! log_file = None \/
  (exists wr content, fs w !! log_file = Some (File false wr content)) ->
  extract_log_entries log_file keyword start_time end_time w =
    (Ret [],
     set_stdout
       (stdout w ++
        [open_failure_message log_file (fs w !! log_file)])
       w).
Proof.
  intros [H | (wr & content & H)];
    unfold extract_log_entries, open_read; rewrite H; reflexivity.
Qed.

(** C9. When the log file can be read, [extract_log_entries] returns the
    stripped texts of some of the lines of the file, in the order in which
    these lines stand in the file; each of these lines is one that its turn
    of the loop kept, in a world that differs from the initial one by
    readings of the clock only. *)
Theorem extract_log_entries_in_file_order
    (log_file : string) (keyword : option string)
    (start_time end_time : option datetime) (w : World)
    (wr : bool) (content : string) :
  fs w !! log_file = Some (File true wr content) ->
  exists (kept : list string) (w' : World),
    extract_log_entries log_file keyword start_time end_time w
      = (Ret (strip <$> kept), w') /\
    sublist kept (readlines content) /\
    Forall (fun l => exists wl,
              during w wl /\ retained keyword start_time end_time l [] wl) kept.
Proof.
  intros H. rewrite (extract_log_entries_readable _ _ _ _ _ _ _ H).
  destruct (for_lines_run keyword start_time end_time (readlines content) [] w)
    as (kept & w' & -> & Hsub & Hall & _).
  exists kept, w'. auto.
Qed.

(* ===================================================================== *)
(** ** The extension of the file name *)
(* ===================================================================== *)

(** C8. [ensure_log_extension] is idempotent; it turns ["auth"] into
    ["auth.log"] and leaves ["auth.log"] as it is. *)
Theorem ensure_log_extension_idempotent :
  (forall s : string,
     ensure_log_extension (ensure_log_extension s) = ensure_log_extension s) /\
  ensure_log_extension "auth" = "auth.log" /\
  ensure_log_extension "auth.log" = "auth.log".
Proof.
  split; [|split; reflexivity].
  intros s. unfold ensure_log_extension.
  destruct (endswith s ".log") eqn:E.
  - now rewrite E.
  - now rewrite endswith_app.
Qed.

(* ===================================================================== *)
(** ** The CSV appender *)
(* ===================================================================== *)

Section CsvAppender.

Lemma set_fs_id (w : World) : set_fs (fs w) w = w.
Proof. now destruct w. Qed.

Lemma for_each_write (path : string) (f : string -> string)
    (entries : list string) :
  forall (w : World) (r : bool) (content : string),
    fs w !! path = Some (File r true content) ->
    for_each entries (fun entry => write path (f entry)) w =
      (Ret tt,
       set_fs (<[path := File r true (content +:+ joined (map f entries))]> (fs w)) w).
Proof.
  induction entries as [|e es IH]; intros w r content H.
  - cbn. rewrite app_empty_r, insert_id by exact H. now rewrite set_fs_id.
  - cbn [for_each map joined foldr]. unfold bind at 1.
    unfold write at 1. rewrite H.
    erewrite IH by (cbn; apply lookup_insert_eq).
    cbn. now rewrite insert_insert_eq, app_assoc_str.
Qed.

Lemma save_to_csv_run (entries : list string) (output_file : string) (w : World) :
  can_append output_file w = true ->
  save_to_csv entries output_file w =
    (Ret tt,
     set_fs (appended output_file
               (joined (map (csv_record
                               (strftime (clock w (ticks w)) "%Y-%m-%d %H:%M:%S"))
                            entries))
               w)
            (set_ticks (S (ticks w)) w)).
Proof.
  unfold can_append, appended, text_at, readable_at, save_to_csv.
  intros H. unfold bind at 1. unfold now.
  unfold bind at 1. unfold open_append. cbn [fs set_ticks].
  destruct (fs w !! output_file) as [[r wr content|]|] eqn:E;
    [subst wr | discriminate |].
  - erewrite for_each_write by (cbn; exact E). reflexivity.
  - erewrite for_each_write by (cbn; apply lookup_insert_eq).
    cbn. now rewrite insert_insert_eq.
Qed.

End CsvAppender.

(* ===================================================================== *)
(** ** The shape of the time column *)
(* ===================================================================== *)

Section TimeColumn.

Lemma below_checked (P : Z -> bool) (bound : Z) :
  forallb (fun n => P (Z.of_nat n)) (seq 0 (Z.to_nat bound)) = true ->
  forall n, 0 <= n < bound -> P n = true.
Proof.
  intros H n Hn. rewrite forallb_forall in H.
  rewrite <- (Z2Nat.id n) by lia. apply H, in_seq. lia.
Qed.

Lemma zfill_two (n : Z) : 0 <= n <= 99 -> two_digits (zfill 2 n) = true.
Proof.
  intros H. apply (below_checked (fun n => two_digits (zfill 2 n)) 100);
    [vm_compute; reflexivity | lia].
Qed.

Lemma zfill_four (n : Z) : 0 <= n <= 9999 -> four_digits (zfill 4 n) = true.
Proof.
  intros H. apply (below_checked (fun n => four_digits (zfill 4 n)) 10000);
    [vm_compute; reflexivity | lia].
Qed.

Lemma strftime_iso (t : datetime) :
  strftime t "%Y-%m-%d %H:%M:%S" =
    zfill 4 (year t) +:+ "-" +:+ zfill 2 (month t) +:+ "-" +:+ zfill 2 (day t)
    +:+ " " +:+ zfill 2 (hour t) +:+ ":" +:+ zfill 2 (minute t)
    +:+ ":" +:+ zfill 2 (second t).
Proof. cbn. now rewrite app_empty_r. Qed.

Lemma days_in_month_le (y m : Z) : days_in_month y m <= 31.
Proof.
  unfold days_in_month.
  repeat match goal with |- context [if ?b then _ else _] => destruct b end; lia.
Qed.

(** The time column of a valid datetime has the shape
    [YYYY-MM-DD HH:MM:SS]. *)
Lemma strftime_iso_shaped (t : datetime) :
  valid t = true -> iso_shaped (strftime t "%Y-%m-%d %H:%M:%S") = true.
Proof.
  unfold valid. rewrite !andb_true_iff, !Z.leb_le.
  intros [[[[[[[[[[[[[Hy1 Hy2] Hm1] Hm2] Hd1] Hd2] Hh1] Hh2] Hi1] Hi2] Hs1] Hs2] _] _].
  pose proof (days_in_month_le (year t) (month t)) as Hdim.
  assert (Hy : four_digits (zfill 4 (year t)) = true) by (apply zfill_four; lia).
  assert (Hm : two_digits (zfill 2 (month t)) = true) by (apply zfill_two; lia).
  assert (Hd : two_digits (zfill 2 (day t)) = true) by (apply zfill_two; lia).
  assert (Hh : two_digits (zfill 2 (hour t)) = true) by (apply zfill_two; lia).
  assert (Hi : two_digits (zfill 2 (minute t)) = true) by (apply zfill_two; lia).
  assert (Hs : two_digits (zfill 2 (second t)) = true) by (apply zfill_two; lia).
  rewrite strftime_iso.
  unfold four_digits, two_digits in Hy, Hm, Hd, Hh, Hi, Hs.
  destruct (zfill 4 (year t)) as [|y1 [|y2 [|y3 [|y4 [|? ?]]]]]; try discriminate.
  destruct (zfill 2 (month t)) as [|m1 [|m2 [|? ?]]]; try discriminate.
  destruct (zfill 2 (day t)) as [|d1 [|d2 [|? ?]]]; try discriminate.
  destruct (zfill 2 (hour t)) as [|h1 [|h2 [|? ?]]]; try discriminate.
  destruct (zfill 2 (minute t)) as [|i1 [|i2 [|? ?]]]; try discriminate.
  destruct (zfill 2 (second t)) as [|s1 [|s2 [|? ?]]]; try discriminate.
  repeat match goal with
         | H : _ && _ = true |- _ => apply andb_true_iff in H as [? ?]
         end.
  unfold iso_shaped, iso_pattern. cbv [String.append]. cbn [match_classes].
  repeat match goal with
         | H : isdigit ?c = true |- _ => rewrite H; clear H
         end.
  reflexivity.
Qed.

End TimeColumn.

(** C7. When the output file can be opened for appending and the clock
    gives a valid datetime, [save_to_csv] ends normally; the text of the
    file is what it was, followed by one record per entry, in order; a
    record is the time column between double quotes, a comma, the entry
    between double quotes exactly as it is (a double quote in it is not
    escaped), and a newline; the time column has the shape
    [YYYY-MM-DD HH:MM:SS]; no other file changes. *)
Theorem save_to_csv_appends
    (entries : list string) (output_file : string) (w : World) :
  can_append output_file w = true ->
  valid (clock w (ticks w)) = true ->
  exists (timestamp : string) (w' : World),
    save_to_csv entries output_file w = (Ret tt, w') /\
    timestamp = strftime (clock w (ticks w)) "%Y-%m-%d %H:%M:%S" /\
    iso_shaped timestamp = true /\
    text_at output_file w' =
      text_at output_file w +:+
      joined (map (fun entry =>
                     DQ +:+ timestamp +:+ DQ +:+ "," +:+ DQ +:+ entry +:+ DQ +:+ LF)
                  entries) /\
    (forall p, p <> output_file -> fs w' !! p = fs w !! p).
Proof.
  intros Hopen Hvalid. eexists _, _.
  split; [apply (save_to_csv_run _ _ _ Hopen)|].
  split; [reflexivity|].
  split; [now apply strftime_iso_shaped|].
  split.
  - unfold text_at at 1, appended. cbn [fs set_fs].
    now rewrite lookup_insert_eq.
  - intros p Hp. unfold appended. cbn [fs set_fs].
    now rewrite lookup_insert_ne.
Qed.

(** C10. In one call of [save_to_csv] the clock is read once, before the
    loop: however many entries there are, the call leaves the count of
    readings one higher, and every record it appends carries the same time
    column, the one of that single reading. *)
Theorem save_to_csv_one_timestamp
    (entries : list string) (output_file : string) (w : World) :
  can_append output_file w = true ->
  exists (timestamp : string) (w' : World),
    save_to_csv entries output_file w = (Ret tt, w') /\
    ticks w' = S (ticks w) /\
    timestamp = strftime (clock w (ticks w)) "%Y-%m-%d %H:%M:%S" /\
    text_at output_file w' =
      text_at output_file w +:+ joined (map (csv_record timestamp) entries).
Proof.
  intros Hopen. eexists _, _.
  split; [apply (save_to_csv_run _ _ _ Hopen)|].
  split; [reflexivity|].
  split; [reflexivity|].
  unfold text_at at 1, appended. cbn [fs set_fs].
  now rewrite lookup_insert_eq.
Qed.

(* ===================================================================== *)
(** ** What leaves the file system alone *)
(* ===================================================================== *)

Section Frame.

Lemma keeps_fs_ret {A} (a : A) : keeps_fs (ret a).
Proof. now intros w. Qed.

Lemma keeps_fs_raise {A} (e : exn) : keeps_fs (@raise A e).
Proof. now intros w. Qed.

Lemma keeps_fs_lift {A} (o : outcome A) : keeps_fs (lift o).
Proof. now intros w. Qed.

Lemma keeps_fs_bind {A B} (m : M A) (k : A -> M B) :
  keeps_fs m -> (forall a, keeps_fs (k a)) -> keeps_fs (bind m k).
Proof.
  intros Hm Hk w. unfold bind. specialize (Hm w).
  destruct (m w) as [[a|e] w1]; cbn in *; [|exact Hm].
  now rewrite Hk.
Qed.

Lemma keeps_fs_print (s : string) : keeps_fs (print s).
Proof. now intros w. Qed.

Lemma keeps_fs_input (prompt : string) : keeps_fs (input prompt).
Proof. intros w. unfold input. cbn. now destruct (stdin w). Qed.

Lemma keeps_fs_isfile (path : string) : keeps_fs (isfile path).
Proof.
  intros w. unfold isfile. now destruct (fs w !! path) as [[]|].
Qed.

Lemma keeps_fs_getcwd : keeps_fs getcwd.
Proof. now intros w. Qed.

Lemma keeps_fs_exit {A} : keeps_fs (@exit A).
Proof. now intros w. Qed.

End Frame.

Create HintDb frame.
#[export] Hint Resolve keeps_fs_ret keeps_fs_raise keeps_fs_lift keeps_fs_print
  keeps_fs_input keeps_fs_isfile keeps_fs_getcwd keeps_fs_exit : frame.

Ltac frame :=
  repeat first
    [ solve [auto with frame]
    | apply keeps_fs_bind; [|intros ?]
    | match goal with
      | |- keeps_fs (if ?b then _ else _) => destruct b
      | |- keeps_fs (match ?x with _ => _ end) => destruct x
      end ].

Section FrameOfTheProgram.

Lemma keeps_fs_get_log_file_path : keeps_fs get_log_file_path.
Proof. unfold get_log_file_path. frame. Qed.

Lemma keeps_fs_read_criteria : keeps_fs read_criteria.
Proof.
  unfold read_criteria. pose proof keeps_fs_get_log_file_path. frame.
Qed.

Lemma keeps_fs_extract_log_entries
    (log_file : string) (keyword : option string)
    (start_time end_time : option datetime) :
  keeps_fs (extract_log_entries log_file keyword start_time end_time).
Proof.
  intros w. unfold extract_log_entries, open_read.
  destruct (fs w !! log_file) as [[[] wr content|]|] eqn:E; try reflexivity.
  destruct (for_lines_run keyword start_time end_time (readlines content) [] w)
    as (kept & w' & -> & _ & _ & Hd).
  cbn. apply Hd.
Qed.

End FrameOfTheProgram.

(* ===================================================================== *)
(** ** The orchestrator *)
(* ===================================================================== *)

Section Orchestrator.

Lemma set_stdout_twice (a b : list string) (w : World) :
  set_stdout a (set_stdout b w) = set_stdout a w.
Proof. reflexivity. Qed.

Lemma for_each_print (f : string -> string) (entries : list string) :
  forall w : World,
    for_each entries (fun entry => print (f entry)) w =
      (Ret tt,
       set_stdout (stdout w ++ map (fun entry => f entry +:+ LF) entries) w).
Proof.
  induction entries as [|e es IH]; intros w.
  - cbn. rewrite app_nil_r. now destruct w.
  - cbn [for_each map]. unfold bind at 1. unfold print at 1.
    rewrite IH. cbn [stdout set_stdout]. rewrite set_stdout_twice.
    now rewrite <- app_assoc.
Qed.

Lemma report_empty (w : World) :
  report [] w =
    (Ret tt, set_stdout (stdout w ++ ["No matching log entries found." +:+ LF]) w).
Proof. reflexivity. Qed.

Lemma report_entries (log_entries : list string) (w : World) :
  log_entries <> [] ->
  can_append "parsed_log.csv" w = true ->
  report log_entries w =
    (Ret tt,
     set_stdout (stdout w ++ summary log_entries)
       (set_fs (appended "parsed_log.csv"
                  (joined (map (csv_record
                            (strftime (clock w (ticks w)) "%Y-%m-%d %H:%M:%S"))
                            log_entries)) w)
               (set_ticks (S (ticks w)) w))).
Proof.
  intros Hne Hopen. destruct log_entries as [|e es]; [congruence|].
  unfold report. set (l := e :: es) in *.
  unfold bind at 1. unfold print at 1.
  unfold bind at 1. rewrite save_to_csv_run by exact Hopen.
  unfold bind at 1. unfold print at 1.
  unfold bind at 1. unfold print at 1.
  rewrite for_each_print. unfold summary. cbn [stdout set_stdout set_fs set_ticks].
  f_equal. unfold set_stdout. cbn. f_equal.
  now rewrite <- !app_assoc.
Qed.

End Orchestrator.

(** C6. Let the prompts of [main] end normally and the filter return a
    list of entries.  If the list is empty, [main] writes the "no matches"
    line and ends, and no file has changed since [main] began: nothing is
    written to [parsed_log.csv].  If it is not empty and [parsed_log.csv]
    can be opened for appending, [main] ends normally, the text of
    [parsed_log.csv] is what it was followed by one record per entry, and
    the console receives the count of the entries, the two lines about the
    saving, and the first five entries (all of them, if fewer). *)
Theorem main_reports
    (w w1 w2 : World) (log_file : string) (keyword : option string)
    (start_time end_time : option datetime) (log_entries : list string) :
  read_criteria w = (Ret (log_file, keyword, start_time, end_time), w1) ->
  extract_log_entries log_file keyword start_time end_time w1
    = (Ret log_entries, w2) ->
  match log_entries with
  | [] =>
      main w = (Ret tt,
                set_stdout (stdout w2 ++ ["No matching log entries found." +:+ LF]) w2)
      /\ fs w2 = fs w
  | _ :: _ =>
      can_append "parsed_log.csv" w2 = true ->
      exists w' : World,
        main w = (Ret tt, w') /\
        stdout w' = stdout w2 ++ summary log_entries /\
        text_at "parsed_log.csv" w' =
          text_at "parsed_log.csv" w +:+
          joined (map (csv_record
                         (strftime (clock w2 (ticks w2)) "%Y-%m-%d %H:%M:%S"))
                      log_entries)
  end.
Proof.
  intros Hread Hfilter.
  assert (Hfs : fs w2 = fs w).
  { pose proof (keeps_fs_read_criteria w) as H1.
    pose proof (keeps_fs_extract_log_entries
                  log_file keyword start_time end_time w1) as H2.
    rewrite Hread in H1. rewrite Hfilter in H2. cbn in H1, H2. congruence. }
  assert (Hmain : main w = report log_entries w2).
  { unfold main. unfold bind at 1. rewrite Hread.
    unfold bind at 1. now rewrite Hfilter. }
  rewrite Hmain. destruct log_entries as [|e es].
  - split; [apply report_empty | exact Hfs].
  - intros Hopen. eexists. split; [now apply report_entries|].
    split; [reflexivity|].
    replace (text_at "parsed_log.csv" w) with (text_at "parsed_log.csv" w2)
      by (unfold text_at; now rewrite Hfs).
    unfold text_at at 1, appended. cbn [fs set_fs set_stdout set_ticks].
    now rewrite lookup_insert_eq.
Qed.

(* ===================================================================== *)
(** ** Runs on concrete inputs *)
(* ===================================================================== *)

(** Scenario A: the keyword occurs in the line, no bounds: kept. *)
Example scenario_keyword_found :
  loop_body (Some "Failed") None None login_line [] idle
    = (Ret ["Nov 26 14:29:50 server sshd: Failed login"], idle).
Proof. vm_compute. reflexivity. Qed.

(** Scenario B: the keyword does not occur in the line: dropped. *)
Example scenario_keyword_missing :
  loop_body (Some "Accepted") None None login_line [] idle = (Ret [], idle).
Proof. vm_compute. reflexivity. Qed.

(** The keyword is compared case for case. *)
Example scenario_keyword_case :
  loop_body (Some "failed") None None login_line [] idle = (Ret [], idle).
Proof. vm_compute. reflexivity. Qed.

(** Scenario C: two tokens only, a bound set: no timestamp, kept. *)
Example scenario_short_line :
  loop_body (Some "") (Some midnight) None short_line [] idle
    = (Ret ["garbage short"], idle).
Proof. vm_compute. reflexivity. Qed.

(** A line stamped one second after the end bound is dropped, one stamped
    at the end bound is kept. *)
Example scenario_end_bound :
  (loop_body None None (Some (mkdt 2026 11 26 14 29 49 0)) login_line [] idle).1
    = Ret [] /\
  (loop_body None None (Some stamp) login_line [] idle).1
    = Ret ["Nov 26 14:29:50 server sshd: Failed login"].
Proof. split; vm_compute; reflexivity. Qed.

(** The whole filter on the sample file. *)
Example scenario_filter :
  (extract_log_entries "/home/op/auth.log" (Some "Failed")
     (Some midnight) None idle).1
    = Ret ["Nov 26 14:29:50 server sshd: Failed login";
           "Nov 27 01:00:00 host cron: Failed again"].
Proof. vm_compute. reflexivity. Qed.

(** Scenario E: the file is absent: the message of that condition, the
    "no matches" line, and the file system as it was. *)
Example scenario_missing_file :
  let '(r, w) := main (a_world typed_missing) in
  r = Ret tt /\
  fs w = files /\
  drop 8 (stdout w) =
    ["Log file /home/op/nope.log not found." +:+ LF;
     "No matching log entries found." +:+ LF].
Proof. vm_compute. auto. Qed.

(** A double quote in an entry goes to the file as it is. *)
Example scenario_quote :
  csv_record "2026-11-04 10:00:00" ("say " +:+ DQ +:+ "hi" +:+ DQ)
    = DQ +:+ "2026-11-04 10:00:00" +:+ DQ +:+ "," +:+ DQ
      +:+ "say " +:+ DQ +:+ "hi" +:+ DQ +:+ DQ +:+ LF.
Proof. reflexivity. Qed.

(** The theorems above, at these inputs. *)

Lemma time_filter_inclusive_witness :
  extract_time login_line idle = (Ret (Some stamp), set_ticks 1 idle) /\
  keyword_ok (Some "Failed") login_line /\
  (retained (Some "Failed") (Some midnight) (Some stamp) login_line [] idle
     <-> within (Some midnight) (Some stamp) stamp) /\
  (discarded (Some "Failed") (Some midnight) (Some stamp) login_line [] idle
     <-> ~ within (Some midnight) (Some stamp) stamp).
Proof.
  split; [vm_compute; reflexivity|].
  split; [vm_compute; reflexivity|].
  apply (time_filter_inclusive (Some "Failed") (Some midnight) (Some stamp)
           login_line [] idle (set_ticks 1 idle) stamp);
    vm_compute; reflexivity.
Defined.

Lemma no_timestamp_passes_witness :
  extract_time short_line idle = (Ret None, idle) /\
  (retained (Some "short") (Some midnight) (Some stamp) short_line [] idle
     <-> keyword_ok (Some "short") short_line).
Proof.
  split; [vm_compute; reflexivity|].
  apply (no_timestamp_passes (Some "short") (Some midnight) (Some stamp)
           short_line [] idle idle).
  vm_compute; reflexivity.
Defined.

Lemma keyword_filter_witness :
  retained (Some "Failed") None None login_line [] idle /\
  (Some "Failed" = None \/ Some "Failed" = Some EmptyString \/
   exists k pre post, Some "Failed" = Some k /\ login_line = pre +:+ k +:+ post).
Proof.
  assert (H : retained (Some "Failed") None None login_line [] idle)
    by (vm_compute; reflexivity).
  split; [exact H|].
  exact (proj1 (keyword_filter (Some "Failed") None None login_line [] idle) H).
Defined.

Lemma extract_log_entries_unopenable_witness :
  (fs idle !! "/home/op/secret.log" = None \/
   exists wr content,
     fs idle !! "/home/op/secret.log" = Some (File false wr content)) /\
  extract_log_entries "/home/op/secret.log" (Some "Failed") None None idle =
    (Ret [],
     set_stdout
       (stdout idle ++
        [open_failure_message "/home/op/secret.log"
           (fs idle !! "/home/op/secret.log")])
       idle).
Proof.
  assert (H : fs idle !! "/home/op/secret.log" = None \/
              exists wr content,
                fs idle !! "/home/op/secret.log" = Some (File false wr content)).
  { right. exists true, log_text. vm_compute. reflexivity. }
  split; [exact H|].
  exact (extract_log_entries_unopenable "/home/op/secret.log" (Some "Failed")
           None None idle H).
Defined.

Lemma extract_log_entries_in_file_order_witness :
  fs idle !! "/home/op/auth.log" = Some (File true true log_text) /\
  exists (kept : list string) (w' : World),
    extract_log_entries "/home/op/auth.log" (Some "Failed") (Some midnight) None idle
      = (Ret (strip <$> kept), w') /\
    sublist kept (readlines log_text) /\
    Forall (fun l => exists wl,
              during idle wl /\
              retained (Some "Failed") (Some midnight) None l [] wl) kept.
Proof.
  assert (H : fs idle !! "/home/op/auth.log" = Some (File true true log_text))
    by (vm_compute; reflexivity).
  split; [exact H|].
  exact (extract_log_entries_in_file_order "/home/op/auth.log" (Some "Failed")
           (Some midnight) None idle true log_text H).
Defined.

Lemma save_to_csv_appends_witness :
  can_append "parsed_log.csv" idle = true /\
  valid (clock idle (ticks idle)) = true /\
  exists (timestamp : string) (w' : World),
    save_to_csv ["one"; "say " +:+ DQ +:+ "hi" +:+ DQ] "parsed_log.csv" idle
      = (Ret tt, w') /\
    timestamp = strftime (clock idle (ticks idle)) "%Y-%m-%d %H:%M:%S" /\
    iso_shaped timestamp = true /\
    text_at "parsed_log.csv" w' =
      text_at "parsed_log.csv" idle +:+
      joined (map (fun entry =>
                     DQ +:+ timestamp +:+ DQ +:+ "," +:+ DQ +:+ entry +:+ DQ +:+ LF)
                  ["one"; "say " +:+ DQ +:+ "hi" +:+ DQ]) /\
    (forall p, p <> "parsed_log.csv" -> fs w' !! p = fs idle !! p).
Proof.
  split; [vm_compute; reflexivity|].
  split; [vm_compute; reflexivity|].
  apply (save_to_csv_appends ["one"; "say " +:+ DQ +:+ "hi" +:+ DQ]
           "parsed_log.csv" idle); vm_compute; reflexivity.
Defined.

Lemma save_to_csv_one_timestamp_witness :
  can_append "fresh.csv" idle = true /\
  exists (timestamp : string) (w' : World),
    save_to_csv ["one"; "two"; "three"] "fresh.csv" idle = (Ret tt, w') /\
    ticks w' = S (ticks idle) /\
    timestamp = strftime (clock idle (ticks idle)) "%Y-%m-%d %H:%M:%S" /\
    text_at "fresh.csv" w' =
      text_at "fresh.csv" idle +:+
      joined (map (csv_record timestamp) ["one"; "two"; "three"]).
Proof.
  split; [vm_compute; reflexivity|].
  apply (save_to_csv_one_timestamp ["one"; "two"; "three"] "fresh.csv" idle).
  vm_compute; reflexivity.
Defined.

Lemma main_reports_witness :
  let log_file := "/home/op/auth.log" in
  let keyword := Some "Failed" in
  let start_time := Some midnight in
  let end_time := Some (mkdt 2026 11 27 23 59 59 0) in
  let log_entries := ["Nov 26 14:29:50 server sshd: Failed login";
                      "Nov 27 01:00:00 host cron: Failed again"] in
  let w := a_world typed_auth in
  let w1 := after_prompts typed_auth in
  let w2 := after_filter typed_auth log_file keyword start_time end_time in
  read_criteria w = (Ret (log_file, keyword, start_time, end_time), w1) /\
  extract_log_entries log_file keyword start_time end_time w1
    = (Ret log_entries, w2) /\
  can_append "parsed_log.csv" w2 = true /\
  exists w' : World,
    main w = (Ret tt, w') /\
    stdout w' = stdout w2 ++ summary log_entries /\
    text_at "parsed_log.csv" w' =
      text_at "parsed_log.csv" w +:+
      joined (map (csv_record
                     (strftime (clock w2 (ticks w2)) "%Y-%m-%d %H:%M:%S"))
                  log_entries).
Proof.
  intros log_file keyword start_time end_time log_entries w w1 w2.
  assert (H1 : read_criteria w = (Ret (log_file, keyword, start_time, end_time), w1))
    by (vm_compute; reflexivity).
  assert (H2 : extract_log_entries log_file keyword start_time end_time w1
               = (Ret log_entries, w2))
    by (vm_compute; reflexivity).
  assert (H3 : can_append "parsed_log.csv" w2 = true)
    by (vm_compute; reflexivity).
  split; [exact H1|]. split; [exact H2|]. split; [exact H3|].
  exact (main_reports w w1 w2 log_file keyword start_time end_time log_entries
           H1 H2 H3).
Defined.

(* ===================================================================== *)
(** ** Further properties: text *)
(* ===================================================================== *)

Section MoreTextFacts.

Lemma substring_split (n : nat) :
  forall s : string,
    (n <= String.length s)%nat ->
    s = String.substring 0 n s +:+ String.substring n (String.length s - n) s.
Proof.
  induction n as [|n IH]; intros s Hn.
  - rewrite Nat.sub_0_r. destruct s as [|c s]; [reflexivity|].
    cbn [String.substring]. rewrite app_empty_l.
    cbn [String.length]. f_equal.
    clear Hn. induction s as [|d s IHs]; [reflexivity|].
    cbn [String.length String.substring]. now rewrite <- IHs.
  - destruct s as [|c s]; [cbn in Hn; lia|].
    cbn [String.length] in *. cbn [String.substring].
    rewrite app_cons. f_equal. apply IH. lia.
Qed.

(** [endswith] decides "[suf] is a suffix of [s]". *)
Lemma endswith_spec (s suf : string) :
  endswith s suf = true <-> exists pre, s = pre +:+ suf.
Proof.
  split.
  - unfold endswith. intros H. apply andb_true_iff in H as [Hlen Heq].
    apply Nat.leb_le in Hlen. apply String.eqb_eq in Heq.
    exists (String.substring 0 (String.length s - String.length suf) s).
    pose proof (substring_split (String.length s - String.length suf) s) as Hs.
    replace (String.length s - (String.length s - String.length suf))%nat
      with (String.length suf) in Hs by lia.
    rewrite Heq in Hs. apply Hs. lia.
  - intros [pre ->]. apply endswith_app.
Qed.

Lemma endswith_app_l (pre s suf : string) :
  endswith s suf = true -> endswith (pre +:+ s) suf = true.
Proof.
  rewrite !endswith_spec. intros [p ->]. exists (pre +:+ p).
  now rewrite app_assoc_str.
Qed.

Lemma startswith_app (s t : string) : startswith (s +:+ t) s = true.
Proof. apply startswith_spec. now exists t. Qed.

Lemma startswith_refl (s : string) : startswith s s = true.
Proof. apply startswith_spec. exists EmptyString. now rewrite app_empty_r. Qed.

End MoreTextFacts.

(** X1. The name [ensure_log_extension] returns always ends with
    [".log"] and always begins with the name it was given: nothing of the
    name is removed or altered, whatever extension it already has. *)
Theorem ensure_log_extension_shape (file_name : string) :
  endswith (ensure_log_extension file_name) ".log" = true /\
  startswith (ensure_log_extension file_name) file_name = true.
Proof.
  unfold ensure_log_extension.
  destruct (endswith file_name ".log") eqn:E.
  - split; [exact E | apply startswith_refl].
  - split; [apply endswith_app | apply startswith_app].
Qed.

(* ===================================================================== *)
(** ** Further properties: the path resolver *)
(* ===================================================================== *)

Section PathResolver.

Lemma ensures_ret {A} (a : A) (Q : A -> Prop) : Q a -> ensures (ret a) Q.
Proof. intros H w b w' [= <- _]. exact H. Qed.

Lemma ensures_raise {A} (e : exn) (Q : A -> Prop) : ensures (raise e) Q.
Proof. intros w b w' H. discriminate H. Qed.

Lemma ensures_any {A} (m : M A) : ensures m (fun _ => True).
Proof. now intros w a w' _. Qed.

Lemma ensures_bind {A B} (m : M A) (k : A -> M B)
    (P : A -> Prop) (Q : B -> Prop) :
  ensures m P -> (forall a, P a -> ensures (k a) Q) -> ensures (bind m k) Q.
Proof.
  intros Hm Hk w b w'. unfold bind.
  destruct (m w) as [[a|e] w1] eqn:E; [|discriminate].
  apply Hk. eapply Hm, E.
Qed.

Lemma path_join_endswith (a b suf : string) :
  endswith b suf = true -> endswith (path_join a b) suf = true.
Proof.
  intros H. unfold path_join.
  destruct (startswith b "/"); [exact H|].
  destruct (_ || _); [now apply endswith_app_l|].
  apply endswith_app_l. now apply (endswith_app_l "/").
Qed.

Lemma ensure_log_extension_endswith (file_name : string) :
  endswith (ensure_log_extension file_name) ".log" = true.
Proof.
  unfold ensure_log_extension.
  destruct (endswith file_name ".log") eqn:E; [exact E | apply endswith_app].
Qed.

End PathResolver.

(** X2. When the operator answers neither question with a yes,
    [get_log_file_path] asks the two questions, writes that no log file was
    specified, and leaves by [SystemExit]: no path is returned, and nothing
    else of the world changes. *)
Theorem get_log_file_path_declined
    (w : World) (a1 a2 : string) (rest : list string) :
  stdin w = a1 :: a2 :: rest ->
  says_yes a1 = false ->
  says_yes a2 = false ->
  get_log_file_path w =
    (Raise SystemExit,
     set_stdin rest
       (set_stdout
          (stdout w ++ [ask_default] ++ [ask_custom] ++
           ["No valid log file found or specified. Exiting." +:+ LF]) w)).
Proof.
  unfold says_yes. intros Hin H1 H2.
  unfold get_log_file_path. unfold bind at 1. unfold input at 1.
  cbn [stdin set_stdout]. rewrite Hin. rewrite H1.
  unfold bind at 1. unfold ret at 1.
  unfold bind at 1. unfold input at 1.
  cbn [stdin set_stdout set_stdin]. rewrite H2.
  unfold bind, print, exit, raise. cbn [stdout set_stdout set_stdin].
  rewrite <- !app_assoc. reflexivity.
Qed.

(** X3. Whatever is typed and whatever the files are, a path that
    [get_log_file_path] returns is the default [/var/log/syslog] or ends
    with [".log"]; and finding it changes no file. *)
Theorem get_log_file_path_result (w w' : World) (path : string) :
  get_log_file_path w = (Ret path, w') ->
  (path = "/var/log/syslog" \/ endswith path ".log" = true) /\ fs w' = fs w.
Proof.
  intros H. split.
  - revert w path w' H.
    change (ensures get_log_file_path
              (fun path => path = "/var/log/syslog" \/ endswith path ".log" = true)).
    unfold get_log_file_path.
    apply (ensures_bind _ _ _ _ (ensures_any _)); intros a1 _.
    apply (ensures_bind _ _
             (fun r => r = None \/ r = Some "/var/log/syslog")).
    + destruct (String.eqb _ "y"); [|now apply ensures_ret; left].
      apply (ensures_bind _ _ _ _ (ensures_any _)); intros [|] _;
        apply (ensures_bind _ _ _ _ (ensures_any _)); intros _ _;
        apply ensures_ret; auto.
    + intros r [-> | ->]; [|now apply ensures_ret; left].
      apply (ensures_bind _ _ _ _ (ensures_any _)); intros a2 _.
      destruct (String.eqb _ "y").
      * apply (ensures_bind _ _ _ _ (ensures_any _)); intros d _.
        apply (ensures_bind _ _ _ _ (ensures_any _)); intros d' _.
        apply (ensures_bind _ _ _ _ (ensures_any _)); intros n _.
        apply ensures_ret. right.
        apply path_join_endswith, ensure_log_extension_endswith.
      * apply (ensures_bind _ _ _ _ (ensures_any _)); intros _ _.
        apply ensures_raise.
  - pose proof (keeps_fs_get_log_file_path w) as Hfs.
    rewrite H in Hfs. exact Hfs.
Qed.

(** X4. When the operator answers the first question with a yes (a [y]
    in either case, white space around it aside) and [/var/log/syslog] is a
    regular file, [get_log_file_path] returns that path after this one
    question: it says that the default was found and reads nothing more. *)
Theorem get_log_file_path_default
    (w : World) (a1 : string) (rest : list string)
    (r wr : bool) (content : string) :
  stdin w = a1 :: rest ->
  says_yes a1 = true ->
  fs w !! "/var/log/syslog" = Some (File r wr content) ->
  get_log_file_path w =
    (Ret "/var/log/syslog",
     set_stdin rest
       (set_stdout
          (stdout w ++ [ask_default] ++
           ["Default log file found: /var/log/syslog" +:+ LF]) w)).
Proof.
  unfold says_yes. intros Hin Hyes Hfile.
  unfold get_log_file_path. unfold bind at 1. unfold input at 1.
  cbn [stdin set_stdout]. rewrite Hin, Hyes.
  unfold bind at 1. unfold bind at 1. unfold isfile at 1.
  cbn [fs set_stdin set_stdout]. rewrite Hfile.
  unfold bind, print, ret. cbn [stdout set_stdout set_stdin].
  rewrite <- !app_assoc. reflexivity.
Qed.

(* ===================================================================== *)
(** ** Further properties: the entry filter *)
(* ===================================================================== *)

Section MoreEntryFilter.

Variables (keyword : option string) (start_time end_time : option datetime).

Lemma keeps_passes (line : string) (w : World) :
  keeps keyword start_time end_time line w =
  passes keyword start_time end_time (year (clock w (ticks w))) line.
Proof. reflexivity. Qed.

(** With a clock that stays in the year [y], the loop keeps exactly the
    lines that pass for [y]. *)
Lemma for_lines_one_year (y : Z) (lines : list string) :
  forall (acc : list string) (w : World),
    (forall n, year (clock w n) = y) ->
    exists w',
      for_lines (loop_body keyword start_time end_time) lines acc w
        = (acc ++ (strip <$> List.filter (passes keyword start_time end_time y) lines),
           Ret tt, w') /\
      during w w'.
Proof.
  induction lines as [|line rest IH]; intros acc w Hy.
  - exists w. cbn. rewrite app_nil_r. split; [reflexivity | apply during_refl].
  - cbn [for_lines List.filter]. rewrite loop_body_run, keeps_passes, Hy.
    pose proof (during_turn keyword start_time end_time line w) as Hturn.
    set (w1 := if reads_clock _ _ _ _ then _ else w) in *.
    assert (Hy1 : forall n, year (clock w1 n) = y).
    { intros n. destruct Hturn as (_ & _ & _ & _ & -> & _). apply Hy. }
    destruct (passes keyword start_time end_time y line).
    + destruct (IH (acc ++ [strip line]) w1 Hy1) as (w' & -> & Hd).
      exists w'. split; [|eapply during_trans; eauto].
      now rewrite fmap_cons, <- app_assoc.
    + destruct (IH acc w1 Hy1) as (w' & -> & Hd).
      exists w'. split; [reflexivity | eapply during_trans; eauto].
Qed.

End MoreEntryFilter.

(** Without bounds the loop reads no clock: it keeps the lines that have
    the keyword and leaves the world as it is. *)
Lemma for_lines_untimed (keyword : option string) (lines : list string) :
  forall (acc : list string) (w : World),
    for_lines (loop_body keyword None None) lines acc w
      = (acc ++ (strip <$> List.filter (has_keyword keyword) lines), Ret tt, w).
Proof.
  induction lines as [|line rest IH]; intros acc w.
  - cbn. now rewrite app_nil_r.
  - cbn [for_lines List.filter]. rewrite loop_body_run.
    unfold keeps, reads_clock, has_keyword.
    replace (timed None None) with false by reflexivity.
    rewrite andb_false_r. cbn [negb orb andb]. rewrite andb_true_r.
    destruct (negb (truthy keyword && not_in keyword line)); rewrite IH;
      [now rewrite fmap_cons, <- app_assoc | reflexivity].
Qed.

(** X5. With no time bound set, [extract_log_entries] on a readable file
    returns the stripped texts of exactly the lines that have the keyword
    (all the lines, when the keyword is absent or empty), in the order of
    the file; it reads no clock and leaves the world exactly as it was. *)
Theorem extract_log_entries_untimed
    (log_file : string) (keyword : option string) (w : World)
    (wr : bool) (content : string) :
  fs w !! log_file = Some (File true wr content) ->
  extract_log_entries log_file keyword None None w =
    (Ret (strip <$> List.filter (has_keyword keyword) (readlines content)), w) /\
  (truthy keyword = false ->
   List.filter (has_keyword keyword) (readlines content) = readlines content).
Proof.
  intros H. split.
  - rewrite (extract_log_entries_readable _ _ _ _ _ _ _ H).
    now rewrite for_lines_untimed.
  - intros Hk. unfold has_keyword. rewrite Hk. cbn [andb negb].
    induction (readlines content) as [|l ls IH]; [reflexivity|].
    cbn. now rewrite IH.
Qed.

(** X6. With a clock that stays within one year [y], [extract_log_entries]
    on a readable file returns the stripped texts of exactly the lines that
    pass the keyword stage and the time stage for [y], in the order of the
    file: no line that passes is left out. *)
Theorem extract_log_entries_one_year
    (log_file : string) (keyword : option string)
    (start_time end_time : option datetime) (w : World)
    (wr : bool) (content : string) (y : Z) :
  fs w !! log_file = Some (File true wr content) ->
  (forall n, year (clock w n) = y) ->
  exists w',
    extract_log_entries log_file keyword start_time end_time w =
      (Ret (strip <$> List.filter (passes keyword start_time end_time y)
                                  (readlines content)), w') /\
    during w w'.
Proof.
  intros H Hy. rewrite (extract_log_entries_readable _ _ _ _ _ _ _ H).
  destruct (for_lines_one_year keyword start_time end_time y
              (readlines content) [] w Hy) as (w' & -> & Hd).
  exists w'. split; [reflexivity | exact Hd].
Qed.

(** X7. When the path names a directory, [extract_log_entries] does not
    recover: the [IsADirectoryError] of [open] is none of the two exceptions
    it catches, so it leaves the function, with nothing written on the
    console and no list returned. *)
Theorem extract_log_entries_directory
    (log_file : string) (keyword : option string)
    (start_time end_time : option datetime) (w : World) :
  fs w !! log_file = Some Directory ->
  extract_log_entries log_file keyword start_time end_time w
    = (Raise IsADirectoryError, w).
Proof.
  intros H. unfold extract_log_entries, open_read. now rewrite H.
Qed.

(* ===================================================================== *)
(** ** Further properties: the year of an extracted timestamp *)
(* ===================================================================== *)

Section YearOfStamp.

Lemma match_classes_split (cs : list cls) :
  forall (s m r : string),
    match_classes cs s = Some (m, r) ->
    s = m +:+ r /\ String.length m = length cs.
Proof.
  induction cs as [|c cs IH]; intros s m r H; cbn in H.
  - injection H as <- <-. now split.
  - destruct s as [|x s]; [discriminate|].
    destruct (c x); [|discriminate].
    destruct (match_classes cs s) as [[m' r']|] eqn:E; [|discriminate].
    injection H as <- <-. destruct (IH _ _ _ E) as [-> Hlen].
    split; [reflexivity | cbn; now rewrite Hlen].
Qed.

Lemma match_dir_split (d : directive) (s text r : string) :
  In (text, r) (match_dir d s) -> s = text +:+ r.
Proof.
  unfold match_dir. rewrite <- list_elem_of_In, list_elem_of_omap.
  intros (cs & _ & H). now apply match_classes_split in H.
Qed.

Lemma match_dir_year (s text r : string) :
  In (text, r) (match_dir dir_Y s) -> String.length text = 4%nat.
Proof.
  unfold match_dir. rewrite <- list_elem_of_In, list_elem_of_omap.
  intros (cs & Hcs & H). apply match_classes_split in H as [_ ->].
  cbn in Hcs. apply list_elem_of_singleton in Hcs as ->. reflexivity.
Qed.

Lemma match_spaces_suffix (s r : string) :
  In r (match_spaces s) -> exists p, s = p +:+ r.
Proof.
  revert r. induction s as [|c s IH]; intros r H; cbn in H; [tauto|].
  destruct (isspace c); [|contradiction].
  apply in_app_iff in H as [H|[<-|[]]].
  - destruct (IH _ H) as [p ->]. now exists (String c p).
  - now exists (String c EmptyString).
Qed.

(** In a format that ends with [%Y], the year found is read from the
    four characters that precede what the match leaves. *)
Lemma match_items_ends_with_year (fmt : list item) :
  forall (s : string) (f0 f : found) (r : string),
    In (f, r) (match_items (fmt ++ [Dir dir_Y]) s f0) ->
    exists pre text,
      s = pre +:+ text +:+ r /\ String.length text = 4%nat /\
      f_year f = int_of text.
Proof.
  induction fmt as [|it fmt IH]; intros s f0 f r H.
  - cbn [app match_items] in H. apply in_concat in H as (l & Hl & Hin).
    apply in_map_iff in Hl as ([text r'] & <- & Hdir).
    destruct Hin as [[= <- <-]|[]].
    exists EmptyString, text. split; [|split].
    + rewrite app_empty_l. now apply match_dir_split in Hdir.
    + now apply match_dir_year in Hdir.
    + reflexivity.
  - destruct it as [d| |c]; cbn [app match_items] in H.
    + apply in_concat in H as (l & Hl & Hin).
      apply in_map_iff in Hl as ([t1 r1] & <- & Hdir).
      apply match_dir_split in Hdir as ->.
      destruct (IH _ _ _ _ Hin) as (pre & text & -> & Hlen & Hy).
      exists (t1 +:+ pre), text. now rewrite app_assoc_str.
    + apply in_concat in H as (l & Hl & Hin).
      apply in_map_iff in Hl as (r1 & <- & Hsp).
      apply match_spaces_suffix in Hsp as [p ->].
      destruct (IH _ _ _ _ Hin) as (pre & text & -> & Hlen & Hy).
      exists (p +:+ pre), text. now rewrite app_assoc_str.
    + destruct s as [|x s]; [contradiction|].
      destruct (nocase c x); [|contradiction].
      destruct (IH _ _ _ _ H) as (pre & text & -> & Hlen & Hy).
      now exists (String x pre), text.
Qed.

Lemma same_suffix (b d : string) :
  String.length b = String.length d ->
  forall a c : string, a +:+ b = c +:+ d -> b = d.
Proof.
  intros Hlen. induction a as [|x a IH]; intros [|y c] H.
  - exact H.
  - rewrite app_empty_l in H. subst b.
    rewrite app_cons in Hlen. cbn in Hlen. rewrite length_app_str in Hlen. lia.
  - rewrite app_empty_l in H. subst d.
    rewrite app_cons in Hlen. cbn in Hlen. rewrite length_app_str in Hlen. lia.
  - rewrite !app_cons in H. injection H as _ H. eauto.
Qed.

Lemma year_text (y : Z) :
  1000 <= y <= 9999 ->
  int_of (str_of_Z y) = y /\ String.length (str_of_Z y) = 4%nat.
Proof.
  intros Hy.
  assert (H : year_text_ok y = true).
  { apply (below_checked year_text_ok 10000); [vm_compute; reflexivity | lia]. }
  unfold year_text_ok in H. apply orb_true_iff in H as [H|H].
  - apply Z.ltb_lt in H. lia.
  - apply andb_true_iff in H as [H1 H2].
    apply Z.eqb_eq in H1. apply Nat.eqb_eq in H2. now split.
Qed.

Lemma strptime_year (text : string) (y : Z) (d : datetime) :
  1000 <= y <= 9999 ->
  strptime (text +:+ " " +:+ str_of_Z y) fmt_bdHMSY = Ret d ->
  year d = y.
Proof.
  intros Hy. unfold strptime.
  destruct (match_items fmt_bdHMSY _ defaults) as [|[f rest] ms] eqn:E;
    [discriminate|].
  destruct rest; [|discriminate].
  destruct (valid (to_datetime f)); [|discriminate].
  intros [= <-]. cbn [year to_datetime].
  assert (Hin : In (f, EmptyString)
                   (match_items fmt_bdHMSY (text +:+ " " +:+ str_of_Z y) defaults))
    by (rewrite E; now left).
  change fmt_bdHMSY
    with ([Dir dir_b; Spaces; Dir dir_d; Spaces; Dir dir_H; Lit ":"%char;
           Dir dir_M; Lit ":"%char; Dir dir_S; Spaces] ++ [Dir dir_Y]) in Hin.
  apply match_items_ends_with_year in Hin as (pre & t & Heq & Hlen & ->).
  destruct (year_text y Hy) as [Hint Hlen'].
  rewrite app_empty_r in Heq.
  rewrite <- (app_assoc_str text " " (str_of_Z y)) in Heq.
  apply same_suffix in Heq; [|congruence].
  now rewrite <- Heq.
Qed.

End YearOfStamp.

(** X8. A timestamp that [extract_time] returns carries the year the
    clock read at the call (a year of four digits), whatever the line says;
    its date and time of day passed the range checks of [datetime], and it
    has no fraction of a second. *)
Theorem extract_time_year
    (log_line : string) (w w' : World) (d : datetime) :
  extract_time log_line w = (Ret (Some d), w') ->
  1000 <= year (clock w (ticks w)) <= 9999 ->
  year d = year (clock w (ticks w)) /\ valid d = true /\ microsecond d = 0.
Proof.
  rewrite extract_time_run. unfold parsed_stamp, stamp_text.
  intros [= H _] Hy.
  destruct (length (split log_line) <? 3)%nat; [discriminate|].
  destruct (strptime _ fmt_bdHMSY) as [d'|] eqn:E; [|discriminate].
  injection H as ->.
  split; [now apply strptime_year in E | now apply strptime_valid in E].
Qed.

(* ===================================================================== *)
(** ** Further properties: stripping and the keyword *)
(* ===================================================================== *)

Section Stripping.

Lemma lstrip_head (s : string) (c : ascii) (t : string) :
  lstrip s = String c t -> isspace c = false.
Proof.
  induction s as [|x s IH]; cbn [lstrip]; [discriminate|].
  destruct (isspace x) eqn:E; [exact IH|]. now intros [= <- _].
Qed.

Lemma lstrip_nonspace (c : ascii) (t : string) :
  isspace c = false -> lstrip (String c t) = String c t.
Proof. intros H. cbn [lstrip]. now rewrite H. Qed.

Lemma rstrip_nonspace (c : ascii) (t : string) :
  isspace c = false -> exists t', rstrip (String c t) = String c t'.
Proof.
  intros H. cbn [rstrip]. rewrite H. destruct (rstrip t); eauto.
Qed.

Lemma rstrip_idempotent (s : string) : rstrip (rstrip s) = rstrip s.
Proof.
  induction s as [|c s IH]; [reflexivity|]. cbn [rstrip].
  destruct (rstrip s) as [|d r] eqn:E.
  - destruct (isspace c) eqn:Ec; [reflexivity|]. cbn [rstrip]. now rewrite Ec.
  - cbn [rstrip]. cbn [rstrip] in IH. now rewrite IH.
Qed.

Lemma strip_head (s : string) (c : ascii) (t : string) :
  strip s = String c t -> isspace c = false.
Proof.
  unfold strip. destruct (lstrip s) as [|c0 t0] eqn:E; [discriminate|].
  apply lstrip_head in E.
  destruct (rstrip_nonspace c0 t0 E) as [t' ->]. now intros [= <- _].
Qed.

Lemma strip_idempotent (s : string) : strip (strip s) = strip s.
Proof.
  destruct (strip s) as [|c t] eqn:E; [reflexivity|].
  pose proof (strip_head _ _ _ E) as Hc.
  unfold strip at 1. rewrite (lstrip_nonspace _ _ Hc), <- E.
  unfold strip. apply rstrip_idempotent.
Qed.

Lemma rstrip_of_stripped (k : string) : strip k = k -> rstrip k = k.
Proof.
  intros H. rewrite <- H. unfold strip. apply rstrip_idempotent.
Qed.

(** Stripping on the left stops at a character that is no white space. *)
Lemma lstrip_keeps (c : ascii) (rest : string) :
  isspace c = false ->
  forall pre, exists pre', lstrip (pre +:+ String c rest) = pre' +:+ String c rest.
Proof.
  intros Hc. induction pre as [|x pre IH].
  - exists EmptyString. rewrite !app_empty_l. now apply lstrip_nonspace.
  - rewrite app_cons. cbn [lstrip]. destruct (isspace x); [exact IH|].
    now exists (String x pre).
Qed.

Lemma rstrip_app (a b : string) :
  rstrip b <> EmptyString -> rstrip (a +:+ b) = a +:+ rstrip b.
Proof.
  intros Hb. induction a as [|c a IH]; [reflexivity|].
  rewrite !app_cons. cbn [rstrip]. rewrite IH.
  destruct (a +:+ rstrip b) as [|d r] eqn:E; [|reflexivity].
  destruct a; [|discriminate]. rewrite app_empty_l in E. contradiction.
Qed.

(** Stripping on the right leaves alone a prefix that it leaves alone
    when it stands by itself. *)
Lemma rstrip_fixed (k : string) :
  rstrip k = k -> k <> EmptyString ->
  forall post, exists post', rstrip (k +:+ post) = k +:+ post'.
Proof.
  induction k as [|c k IH]; intros Hk Hne post; [contradiction|].
  rewrite app_cons. cbn [rstrip] in *.
  destruct (rstrip k) as [|d r] eqn:E.
  - destruct (isspace c) eqn:Ec; [discriminate|].
    injection Hk as <-. rewrite app_empty_l.
    destruct (rstrip post) as [|d r]; [exists EmptyString | exists (String d r)];
      reflexivity.
  - injection Hk as Hk. destruct (IH Hk ltac:(congruence) post) as [post' ->].
    exists post'. rewrite app_cons.
    destruct (k +:+ post') eqn:E'; [|reflexivity].
    destruct k; [congruence | discriminate].
Qed.

(** A keyword without white space around it that occurs in a line occurs
    in the stripped line too. *)
Lemma contains_strip (line k : string) :
  strip k = k -> contains line k = true -> contains (strip line) k = true.
Proof.
  intros Hk H. destruct k as [|c k'] eqn:Ek; [apply contains_empty|].
  rewrite <- Ek in *. assert (Hne : k <> EmptyString) by (subst; discriminate).
  assert (Hc : isspace c = false) by (apply (strip_head k c k'); congruence).
  apply contains_spec in H as (pre & post & ->).
  apply contains_spec. unfold strip.
  assert (Hl : exists pre', lstrip (pre +:+ k +:+ post) = pre' +:+ k +:+ post).
  { rewrite Ek, app_cons. apply lstrip_keeps, Hc. }
  destruct Hl as [pre' ->].
  destruct (rstrip_fixed k (rstrip_of_stripped k Hk) Hne post) as [post' Hr].
  exists pre', post'. rewrite rstrip_app; rewrite Hr; [reflexivity|].
  subst k. discriminate.
Qed.

End Stripping.

(** X9. When the keyword has no white space around it (as the one [main]
    passes, which it strips), every entry [extract_log_entries] returns
    contains the keyword; and every entry is stripped: stripping it again
    changes nothing, so no entry begins or ends with white space or carries
    the newline of its line. *)
Theorem entries_have_keyword
    (log_file keyword : string) (start_time end_time : option datetime)
    (w : World) (wr : bool) (content : string) :
  fs w !! log_file = Some (File true wr content) ->
  strip keyword = keyword ->
  exists (entries : list string) (w' : World),
    extract_log_entries log_file (Some keyword) start_time end_time w
      = (Ret entries, w') /\
    Forall (fun entry => contains entry keyword = true /\ strip entry = entry)
           entries.
Proof.
  intros H Hk. rewrite (extract_log_entries_readable _ _ _ _ _ _ _ H).
  destruct (for_lines_run (Some keyword) start_time end_time
              (readlines content) [] w) as (kept & w' & -> & _ & Hall & _).
  exists (strip <$> kept), w'. split; [reflexivity|].
  apply Forall_fmap. eapply Forall_impl; [exact Hall|]. cbn.
  intros line (wl & _ & Hret). split; [|apply strip_idempotent].
  apply contains_strip; [exact Hk|].
  apply retained_iff in Hret. unfold keeps in Hret.
  apply andb_true_iff in Hret as [Hret _]. apply negb_true_iff in Hret.
  unfold truthy, not_in in Hret.
  destruct keyword; [apply contains_empty|].
  cbn [andb] in Hret. now apply negb_false_iff in Hret.
Qed.

(* ===================================================================== *)
(** ** Further properties: the time stage *)
(* ===================================================================== *)

Section MoreTimeStage.

Lemma lex_lt_trans (xs : list Z) :
  forall ys zs, lex_lt xs ys -> lex_lt ys zs -> lex_lt xs zs.
Proof.
  induction xs as [|x xs IH]; intros [|y ys] [|z zs]; cbn; try tauto.
  intros [H1|[-> H1]] [H2|[-> H2]]; [left; lia | now left | now left |].
  right. split; [reflexivity | eauto].
Qed.

Lemma lex_lt_irrefl (xs : list Z) : ~ lex_lt xs xs.
Proof.
  induction xs as [|x xs IH]; cbn; [tauto|]. intros [H|[_ H]]; [lia | tauto].
Qed.

Lemma at_or_before_trans (a b c : datetime) :
  at_or_before a b -> at_or_before b c -> at_or_before a c.
Proof.
  unfold at_or_before, earlier.
  intros [H1| ->] [H2| ->]; auto. left. eapply lex_lt_trans; eauto.
Qed.

Lemma at_or_before_not_earlier (a b : datetime) :
  at_or_before a b -> ~ earlier b a.
Proof.
  unfold at_or_before, earlier. intros [H| ->] H'.
  - eapply lex_lt_irrefl, lex_lt_trans; eauto.
  - eapply lex_lt_irrefl; eauto.
Qed.

End MoreTimeStage.

(** X10. When the end bound is earlier than the start bound, the range
    is empty: every line from which a timestamp is extracted is dropped,
    whatever the timestamp and the keyword. *)
Theorem empty_range_drops
    (keyword : option string) (start_time end_time : datetime)
    (line : string) (acc : list string) (w w1 : World) (T : datetime) :
  extract_time line w = (Ret (Some T), w1) ->
  earlier end_time start_time ->
  discarded keyword (Some start_time) (Some end_time) line acc w.
Proof.
  rewrite extract_time_run. intros [= HT _] Hempty.
  apply discarded_iff. unfold keeps, time_ok. rewrite HT.
  replace (timed (Some start_time) (Some end_time)) with true by reflexivity.
  cbn [negb orb].
  destruct (negb (before_bound (Some start_time) T) &&
            negb (after_bound (Some end_time) T)) eqn:E;
    [|apply andb_false_r].
  exfalso. apply within_iff in E as [H1 H2].
  apply (at_or_before_not_earlier start_time end_time); [|exact Hempty].
  eapply at_or_before_trans; eauto.
Qed.

(** X11. A line with fewer than three tokens never goes through the time
    stage: whatever the bounds, it is kept exactly when it has the keyword,
    and the clock is not read for it. *)
Theorem short_line_skips_time_stage
    (keyword : option string) (start_time end_time : option datetime)
    (line : string) (acc : list string) (w : World) :
  (length (split line) < 3)%nat ->
  loop_body keyword start_time end_time line acc w =
    (Ret (if has_keyword keyword line then acc ++ [strip line] else acc), w).
Proof.
  intros Hshort. apply Nat.ltb_lt in Hshort.
  rewrite loop_body_run.
  unfold keeps, reads_clock, time_ok, parsed_stamp, has_keyword.
  rewrite Hshort, orb_true_r, andb_true_r. cbn [negb]. now rewrite andb_false_r.
Qed.

(* ===================================================================== *)
(** ** Further properties: the CSV appender *)
(* ===================================================================== *)

Lemma save_to_csv_fails
    (entries : list string) (output_file : string) (w : World) :
  can_append output_file w = false ->
  exists e : exn,
    save_to_csv entries output_file w = (Raise e, set_ticks (S (ticks w)) w) /\
    (e = PermissionError \/ e = IsADirectoryError).
Proof.
  unfold can_append, save_to_csv. intros H.
  unfold bind at 1. unfold now. unfold bind at 1. unfold open_append.
  cbn [fs set_ticks].
  destruct (fs w !! output_file) as [[r [] content|]|]; try discriminate;
    eexists; split; try reflexivity; auto.
Qed.

(** X12. When the output path is a file that may not be written, or a
    directory, [save_to_csv] raises the error of [open]
    ([PermissionError], [IsADirectoryError]) after it has read the clock;
    no record is written, not even a part of the entries, and no file
    changes. *)
Theorem save_to_csv_refused
    (entries : list string) (output_file : string) (w : World) :
  can_append output_file w = false ->
  exists e : exn,
    save_to_csv entries output_file w = (Raise e, set_ticks (S (ticks w)) w) /\
    (e = PermissionError \/ e = IsADirectoryError).
Proof.
  intros H. unfold save_to_csv, bind, now, open_append. cbn [fs set_ticks].
  unfold can_append in H.
  destruct (fs w !! output_file) as [[r wr content|]|]; [subst wr| |discriminate].
  - exists PermissionError. split; [reflexivity | now left].
  - exists IsADirectoryError. split; [reflexivity | now right].
Qed.

(** X13. Two calls of [save_to_csv] on the same file, one after the
    other, leave the text it had, then the records of the first call, then
    those of the second, the records of each call with the time of that
    call: what a run appends stays in front of what the next run appends. *)
Theorem save_to_csv_twice
    (entries1 entries2 : list string) (output_file : string) (w : World) :
  can_append output_file w = true ->
  exists w1 w2 : World,
    save_to_csv entries1 output_file w = (Ret tt, w1) /\
    save_to_csv entries2 output_file w1 = (Ret tt, w2) /\
    text_at output_file w2 =
      (text_at output_file w +:+
       joined (map (csv_record
                      (strftime (clock w (ticks w)) "%Y-%m-%d %H:%M:%S"))
                   entries1)) +:+
      joined (map (csv_record
                     (strftime (clock w (S (ticks w))) "%Y-%m-%d %H:%M:%S"))
                  entries2).
Proof.
  intros Hopen.
  pose proof (save_to_csv_run entries1 output_file w Hopen) as Hfirst.
  match type of Hfirst with
  | _ = (_, ?w1) => remember w1 as w1' eqn:Hw1
  end.
  exists w1'. eexists. split; [exact Hfirst|].
  assert (Hlook : fs w1' !! output_file =
                  Some (File (readable_at output_file w) true
                          (text_at output_file w +:+
                           joined (map (csv_record
                             (strftime (clock w (ticks w)) "%Y-%m-%d %H:%M:%S"))
                             entries1)))).
  { rewrite Hw1. unfold appended. cbn [fs set_fs]. apply lookup_insert_eq. }
  assert (Hclock : clock w1' (ticks w1') = clock w (S (ticks w)))
    by now rewrite Hw1.
  assert (Hopen1 : can_append output_file w1' = true).
  { unfold can_append. now rewrite Hlook. }
  split; [apply (save_to_csv_run _ _ _ Hopen1)|].
  unfold text_at at 1, appended. cbn [fs set_fs].
  rewrite lookup_insert_eq, Hclock. unfold text_at at 1. now rewrite Hlook.
Qed.

(** X14. Called with no entries, [save_to_csv] still opens the file: a
    file that was absent exists afterwards, empty; a file that was there
    keeps its text, and then no file changes at all. *)
Theorem save_to_csv_no_entries (output_file : string) (w : World) :
  can_append output_file w = true ->
  exists w' : World,
    save_to_csv [] output_file w = (Ret tt, w') /\
    is_Some (fs w' !! output_file) /\
    text_at output_file w' = text_at output_file w /\
    (is_Some (fs w !! output_file) -> fs w' = fs w).
Proof.
  intros Hopen. eexists. split; [apply (save_to_csv_run _ _ _ Hopen)|].
  unfold appended. cbn [fs set_fs set_ticks map joined foldr].
  rewrite app_empty_r. split; [|split].
  - rewrite lookup_insert_eq. eauto.
  - unfold text_at at 1. cbn [fs set_fs set_ticks]. now rewrite lookup_insert_eq.
  - intros [nd Hnd]. apply insert_id.
    unfold can_append in Hopen. unfold readable_at, text_at. rewrite Hnd in *.
    destruct nd as [r wr content|]; [now subst wr | discriminate].
Qed.

(* ===================================================================== *)
(** ** Further properties: the orchestrator *)
(* ===================================================================== *)

Section MoreOrchestrator.

Lemma malformed_raises (typed : string) :
  malformed typed = true ->
  String.eqb (strip typed) EmptyString = false /\
  strptime (strip typed) fmt_YmdHMS = Raise ValueError.
Proof.
  unfold malformed. intros H. apply andb_true_iff in H as [H1 H2].
  apply negb_true_iff in H1. split; [exact H1|].
  destruct (strptime _ _) as [d|e] eqn:E; [discriminate|].
  now apply strptime_raises in E as ->.
Qed.

(** The prompts of [main] once the path is known, when a bound that was
    typed is malformed. *)
Lemma read_criteria_malformed
    (w w1 : World) (log_file k s e : string) (rest : list string) :
  get_log_file_path (after_banner w) = (Ret log_file, w1) ->
  stdin w1 = k :: s :: e :: rest ->
  malformed s || malformed e = true ->
  read_criteria w =
    (Raise ValueError,
     set_stdin rest
       (set_stdout (stdout w1 ++ [ask_keyword] ++ [ask_start] ++ [ask_end]) w1)).
Proof.
  intros Hget Hin Hbad. unfold read_criteria.
  unfold bind at 1. unfold print at 1. fold (after_banner w).
  unfold bind at 1. rewrite Hget.
  unfold bind at 1. unfold input at 1. cbn [stdin set_stdout]. rewrite Hin.
  unfold bind at 1. unfold input at 1. cbn [stdin set_stdout set_stdin].
  unfold bind at 1. unfold input at 1. cbn [stdin stdout set_stdout set_stdin].
  rewrite <- !app_assoc. cbn [app].
  destruct (malformed s) eqn:Es.
  - apply malformed_raises in Es as [Es1 Es2].
    unfold bind at 1. rewrite Es1. cbn [negb].
    unfold bind at 1. unfold lift at 1. rewrite Es2. reflexivity.
  - cbn [orb] in Hbad. apply malformed_raises in Hbad as [Ee1 Ee2].
    unfold malformed in Es.
    unfold bind at 1.
    destruct (String.eqb (strip s) EmptyString) eqn:Es1; cbn [negb andb] in *.
    + unfold ret at 1. unfold bind at 1. rewrite Ee1. cbn [negb].
      unfold bind at 1. unfold lift at 1. rewrite Ee2. reflexivity.
    + unfold bind at 1. unfold lift at 1.
      destruct (strptime (strip s) fmt_YmdHMS) as [d|] eqn:Es2; [|discriminate].
      unfold ret at 1. unfold bind at 1. rewrite Ee1. cbn [negb].
      unfold bind at 1. unfold lift at 1. rewrite Ee2. reflexivity.
Qed.

End MoreOrchestrator.

(** X15. When what was typed for the start or for the end bound is not
    blank and is no time in the expected format, [main] leaves by
    [ValueError], and only after the three questions were asked and
    answered: the filter has not run, the log file was not opened, the
    clock was not read for it, and no file has changed. *)
Theorem main_malformed_bound
    (w w1 : World) (log_file k s e : string) (rest : list string) :
  get_log_file_path (after_banner w) = (Ret log_file, w1) ->
  stdin w1 = k :: s :: e :: rest ->
  malformed s || malformed e = true ->
  main w =
    (Raise ValueError,
     set_stdin rest
       (set_stdout (stdout w1 ++ [ask_keyword] ++ [ask_start] ++ [ask_end]) w1)) /\
  fs w1 = fs w.
Proof.
  intros Hget Hin Hbad. split.
  - unfold main. unfold bind at 1.
    now rewrite (read_criteria_malformed w w1 log_file k s e rest Hget Hin Hbad).
  - pose proof (keeps_fs_get_log_file_path (after_banner w)) as H.
    rewrite Hget in H. exact H.
Qed.

(** X16. When the filter has found entries but [parsed_log.csv] cannot
    be opened for appending, [main] leaves by the error of [open]: the
    count of the entries was written on the console, the lines about the
    saving and the preview were not, and no file has changed. *)
Theorem main_csv_refused
    (w w1 w2 : World) (log_file : string) (keyword : option string)
    (start_time end_time : option datetime) (log_entries : list string) :
  read_criteria w = (Ret (log_file, keyword, start_time, end_time), w1) ->
  extract_log_entries log_file keyword start_time end_time w1
    = (Ret log_entries, w2) ->
  log_entries <> [] ->
  can_append "parsed_log.csv" w2 = false ->
  exists (e : exn) (w' : World),
    main w = (Raise e, w') /\
    (e = PermissionError \/ e = IsADirectoryError) /\
    stdout w' = stdout w2 ++ [found_line log_entries] /\
    fs w' = fs w.
Proof.
  intros Hread Hfilter Hne Hopen.
  assert (Hfs : fs w2 = fs w).
  { pose proof (keeps_fs_read_criteria w) as H1.
    pose proof (keeps_fs_extract_log_entries
                  log_file keyword start_time end_time w1) as H2.
    rewrite Hread in H1. rewrite Hfilter in H2. cbn in H1, H2. congruence. }
  assert (Hmain : main w = report log_entries w2).
  { unfold main. unfold bind at 1. rewrite Hread.
    unfold bind at 1. now rewrite Hfilter. }
  rewrite Hmain. destruct log_entries as [|x xs]; [congruence|].
  unfold report. set (l := x :: xs).
  unfold bind at 1. unfold print at 1. fold (found_line l).
  destruct (save_to_csv_fails l "parsed_log.csv"
              (set_stdout (stdout w2 ++ [found_line l]) w2) Hopen)
    as (e & Hsave & He).
  unfold bind at 1. rewrite Hsave.
  exists e. eexists. split; [reflexivity|]. split; [exact He|].
  split; [reflexivity | exact Hfs].
Qed.

(** X17. [extract_log_entries] only reads: however it ends, it changes no
    file, takes nothing from the standard input, and writes at most one
    line on the console; apart from that the world differs by readings of
    the clock only. *)
Theorem extract_log_entries_only_reads
    (log_file : string) (keyword : option string)
    (start_time end_time : option datetime) (w : World) :
  let w' := (extract_log_entries log_file keyword start_time end_time w).2 in
  fs w' = fs w /\ cwd w' = cwd w /\ stdin w' = stdin w /\
  clock w' = clock w /\ (ticks w <= ticks w')%nat /\
  (stdout w' = stdout w \/ exists msg, stdout w' = stdout w ++ [msg]).
Proof.
  unfold extract_log_entries, open_read.
  destruct (fs w !! log_file) as [[[] wr content|]|] eqn:E; cbn;
    try (repeat split; eauto; lia).
  destruct (for_lines_run keyword start_time end_time (readlines content) [] w)
    as (kept & w' & -> & _ & _ & Hd).
  cbn. destruct Hd as (? & ? & ? & ? & ? & ?). repeat split; auto.
Qed.

(* ===================================================================== *)
(** ** Further properties: the time column read back as a bound *)
(* ===================================================================== *)

Section RoundTrip.

Lemma match_classes_prefix (cs : list cls) :
  forall (m rest : string),
    (length cs <= String.length m)%nat ->
    match_classes cs (m +:+ rest) =
      match match_classes cs m with
      | Some (a, b) => Some (a, b +:+ rest)
      | None => None
      end.
Proof.
  induction cs as [|c cs IH]; intros m rest Hlen; [reflexivity|].
  destruct m as [|x m]; [cbn in Hlen; lia|].
  rewrite app_cons. cbn [match_classes]. destruct (c x); [|reflexivity].
  rewrite IH by (cbn in Hlen; lia).
  now destruct (match_classes cs m) as [[a b]|].
Qed.

Lemma match_dir_prefix (dr : directive) (m rest : string) :
  Forall (fun cs => (length cs <= String.length m)%nat) (alternatives dr) ->
  match_dir dr (m +:+ rest) =
    map (fun '(a, b) => (a, b +:+ rest)) (match_dir dr m).
Proof.
  unfold match_dir. induction (alternatives dr) as [|cs alts IH]; intros H;
    [reflexivity|].
  apply Forall_cons in H as [Hcs Halts]. cbn [omap list_omap].
  rewrite match_classes_prefix by exact Hcs.
  destruct (match_classes cs m) as [[a b]|]; cbn [map]; now rewrite IH.
Qed.

Lemma reads_back_first (dr : directive) (width : nat) (v : Z) (rest : string) :
  Forall (fun cs => (length cs <= width)%nat) (alternatives dr) ->
  reads_back dr width v = true ->
  (exists others,
     match_dir dr (zfill width v +:+ rest) = (zfill width v, rest) :: others) /\
  int_of (zfill width v) = v.
Proof.
  unfold reads_back. intros Halts H.
  apply andb_true_iff in H as [H Hint]. apply andb_true_iff in H as [Hlen H].
  apply Nat.eqb_eq in Hlen. apply Z.eqb_eq in Hint. split; [|exact Hint].
  rewrite match_dir_prefix by now rewrite Hlen.
  destruct (match_dir dr (zfill width v)) as [|[t' [|? ?]] tl];
    try discriminate.
  apply String.eqb_eq in H as ->. cbn [map]. rewrite app_empty_l. eauto.
Qed.

Lemma first_match_nil (s : string) (f : found) : first_match [] s f (f, s).
Proof. now exists []. Qed.

Lemma first_match_dir (dr : directive) (fmt : list item)
    (t rest : string) (f : found) (x : found * string) (others : list (string * string)) :
  match_dir dr (t +:+ rest) = (t, rest) :: others ->
  first_match fmt rest (set_field dr t f) x ->
  first_match (Dir dr :: fmt) (t +:+ rest) f x.
Proof.
  intros Hdir [ys Hx]. unfold first_match. cbn [match_items].
  rewrite Hdir. cbn [map concat]. rewrite Hx. cbn [app]. eauto.
Qed.

Lemma first_match_lit (c x0 : ascii) (fmt : list item)
    (rest : string) (f : found) (x : found * string) :
  nocase c x0 = true ->
  first_match fmt rest f x ->
  first_match (Lit c :: fmt) (String x0 rest) f x.
Proof.
  intros Hc [ys Hx]. unfold first_match. cbn [match_items]. rewrite Hc. eauto.
Qed.

Lemma first_match_space (c : ascii) (fmt : list item)
    (rest : string) (f : found) (x : found * string) :
  isspace c = true ->
  match_spaces rest = [] ->
  first_match fmt rest f x ->
  first_match (Spaces :: fmt) (String c rest) f x.
Proof.
  intros Hc Hrest [ys Hx]. unfold first_match. cbn [match_items match_spaces].
  rewrite Hc, Hrest. cbn [app map concat]. rewrite Hx. cbn [app]. eauto.
Qed.

Lemma digit_no_space (c : ascii) : isdigit c = true -> isspace c = false.
Proof.
  destruct c as [[] [] [] [] [] [] [] []]; vm_compute; congruence.
Qed.

Lemma reads_back_month (v : Z) : 1 <= v <= 12 -> reads_back dir_m 2 v = true.
Proof.
  intros H.
  assert (Hc : (v <? 1) || reads_back dir_m 2 v = true)
    by (apply (below_checked (fun v => (v <? 1) || reads_back dir_m 2 v) 13);
        [vm_compute; reflexivity | lia]).
  apply orb_true_iff in Hc as [Hc|Hc]; [apply Z.ltb_lt in Hc; lia | exact Hc].
Qed.

Lemma reads_back_day (v : Z) : 1 <= v <= 31 -> reads_back dir_d 2 v = true.
Proof.
  intros H.
  assert (Hc : (v <? 1) || reads_back dir_d 2 v = true)
    by (apply (below_checked (fun v => (v <? 1) || reads_back dir_d 2 v) 32);
        [vm_compute; reflexivity | lia]).
  apply orb_true_iff in Hc as [Hc|Hc]; [apply Z.ltb_lt in Hc; lia | exact Hc].
Qed.

Lemma reads_back_hour (v : Z) : 0 <= v <= 23 -> reads_back dir_H 2 v = true.
Proof.
  intros H. apply (below_checked (reads_back dir_H 2) 24);
    [vm_compute; reflexivity | lia].
Qed.

Lemma reads_back_minute (v : Z) : 0 <= v <= 59 -> reads_back dir_M 2 v = true.
Proof.
  intros H. apply (below_checked (reads_back dir_M 2) 60);
    [vm_compute; reflexivity | lia].
Qed.

Lemma reads_back_second (v : Z) : 0 <= v <= 59 -> reads_back dir_S 2 v = true.
Proof.
  intros H. apply (below_checked (reads_back dir_S 2) 60);
    [vm_compute; reflexivity | lia].
Qed.

Lemma reads_back_year (v : Z) : 1000 <= v <= 9999 -> reads_back dir_Y 4 v = true.
Proof.
  intros H.
  assert (Hc : (v <? 1000) || reads_back dir_Y 4 v = true)
    by (apply (below_checked (fun v => (v <? 1000) || reads_back dir_Y 4 v) 10000);
        [vm_compute; reflexivity | lia]).
  apply orb_true_iff in Hc as [Hc|Hc]; [apply Z.ltb_lt in Hc; lia | exact Hc].
Qed.

End RoundTrip.

Section RoundTripProof.

Lemma match_spaces_digits (v : Z) (rest : string) :
  0 <= v <= 99 -> match_spaces (zfill 2 v +:+ rest) = [].
Proof.
  intros Hv. pose proof (zfill_two v Hv) as H. unfold two_digits in H.
  destruct (zfill 2 v) as [|a [|b [|? ?]]]; try discriminate.
  apply andb_true_iff in H as [Ha _].
  rewrite app_cons. cbn [match_spaces]. now rewrite (digit_no_space a Ha).
Qed.

Lemma alternatives_two (dr : directive) :
  dr <> dir_b -> dr <> dir_Y ->
  Forall (fun cs => (length cs <= 2)%nat) (alternatives dr).
Proof.
  intros Hb HY. destruct dr; try congruence; cbn;
    repeat constructor.
Qed.

Lemma alternatives_year :
  Forall (fun cs => (length cs <= 4)%nat) (alternatives dir_Y).
Proof. cbn. repeat constructor. Qed.

Lemma iso_first_match (d : datetime) :
  valid d = true -> 1000 <= year d ->
  exists f : found,
    first_match fmt_YmdHMS (strftime d "%Y-%m-%d %H:%M:%S") defaults
                (f, EmptyString) /\
    to_datetime f =
      mkdt (year d) (month d) (day d) (hour d) (minute d) (second d) 0.
Proof.
  unfold valid. rewrite !andb_true_iff, !Z.leb_le.
  intros [[[[[[[[[[[[[Hy1 Hy2] Hm1] Hm2] Hd1] Hd2] Hh1] Hh2] Hi1] Hi2] Hs1] Hs2] _] _] Hy.
  pose proof (days_in_month_le (year d) (month d)) as Hdim.
  set (sS := zfill 2 (second d) +:+ EmptyString).
  set (sM := zfill 2 (minute d) +:+ String ":" sS).
  set (sH := zfill 2 (hour d) +:+ String ":" sM).
  set (sD := zfill 2 (day d) +:+ String " " sH).
  set (sm := zfill 2 (month d) +:+ String "-" sD).
  assert (Hdata : strftime d "%Y-%m-%d %H:%M:%S"
                  = zfill 4 (year d) +:+ String "-" sm).
  { rewrite strftime_iso. unfold sm, sD, sH, sM, sS.
    now rewrite (app_empty_r (zfill 2 (second d))). }
  rewrite Hdata.
  destruct (reads_back_first dir_Y 4 (year d) (String "-" sm)
              alternatives_year (reads_back_year (year d) ltac:(lia)))
    as [[oY HdY] HiY].
  destruct (reads_back_first dir_m 2 (month d) (String "-" sD)
              (alternatives_two dir_m ltac:(discriminate) ltac:(discriminate))
              (reads_back_month (month d) ltac:(lia)))
    as [[om Hdm] Him].
  destruct (reads_back_first dir_d 2 (day d) (String " " sH)
              (alternatives_two dir_d ltac:(discriminate) ltac:(discriminate))
              (reads_back_day (day d) ltac:(lia)))
    as [[oD HdD] HiD].
  destruct (reads_back_first dir_H 2 (hour d) (String ":" sM)
              (alternatives_two dir_H ltac:(discriminate) ltac:(discriminate))
              (reads_back_hour (hour d) ltac:(lia)))
    as [[oH HdH] HiH].
  destruct (reads_back_first dir_M 2 (minute d) (String ":" sS)
              (alternatives_two dir_M ltac:(discriminate) ltac:(discriminate))
              (reads_back_minute (minute d) ltac:(lia)))
    as [[oM HdM] HiM].
  destruct (reads_back_first dir_S 2 (second d) EmptyString
              (alternatives_two dir_S ltac:(discriminate) ltac:(discriminate))
              (reads_back_second (second d) ltac:(lia)))
    as [[oS HdS] HiS].
  eexists. split.
  - unfold fmt_YmdHMS.
    eapply first_match_dir; [exact HdY|].
    apply first_match_lit; [reflexivity|].
    eapply first_match_dir; [exact Hdm|].
    apply first_match_lit; [reflexivity|].
    eapply first_match_dir; [exact HdD|].
    apply first_match_space; [reflexivity | apply match_spaces_digits; lia |].
    eapply first_match_dir; [exact HdH|].
    apply first_match_lit; [reflexivity|].
    eapply first_match_dir; [exact HdM|].
    apply first_match_lit; [reflexivity|].
    eapply first_match_dir; [exact HdS|].
    apply first_match_nil.
  - cbn [to_datetime set_field f_year f_month f_day f_hour f_minute f_second].
    now rewrite HiY, Him, HiD, HiH, HiM, HiS.
Qed.

End RoundTripProof.

(** X18. The time column [save_to_csv] writes can be typed back as a
    bound: for a valid datetime of a year of four digits, [strptime] with
    the format [main] uses for the bounds, applied to the text [strftime]
    gives with the format of the time column, returns that datetime (its
    fraction of a second aside, which the column does not carry). *)
Theorem time_column_reads_back (d : datetime) :
  valid d = true ->
  1000 <= year d ->
  strptime (strftime d "%Y-%m-%d %H:%M:%S") fmt_YmdHMS =
    Ret (mkdt (year d) (month d) (day d) (hour d) (minute d) (second d) 0).
Proof.
  intros Hvalid Hy.
  destruct (iso_first_match d Hvalid Hy) as (f & [others Hm] & Hf).
  unfold strptime. rewrite Hm, Hf.
  assert (Hv : valid (mkdt (year d) (month d) (day d)
                           (hour d) (minute d) (second d) 0) = true).
  { unfold valid in *. cbn [year month day hour minute second microsecond].
    rewrite !andb_true_iff in *. intuition. }
  now rewrite Hv.
Qed.

(* ===================================================================== *)
(** ** The further properties on concrete inputs *)
(* ===================================================================== *)

Lemma get_log_file_path_declined_witness :
  get_log_file_path (a_world ["n"; " no "; "left"]) =
    (Raise SystemExit,
     set_stdin ["left"]
       (set_stdout
          (stdout (a_world ["n"; " no "; "left"]) ++ [ask_default] ++ [ask_custom] ++
           ["No valid log file found or specified. Exiting." +:+ LF])
          (a_world ["n"; " no "; "left"]))).
Proof.
  apply (get_log_file_path_declined (a_world ["n"; " no "; "left"])
           "n" " no " ["left"]); vm_compute; reflexivity.
Defined.

Lemma get_log_file_path_result_witness :
  get_log_file_path (a_world typed_auth)
    = (Ret "/home/op/auth.log", (get_log_file_path (a_world typed_auth)).2) /\
  ("/home/op/auth.log" = "/var/log/syslog" \/
   endswith "/home/op/auth.log" ".log" = true) /\
  fs (get_log_file_path (a_world typed_auth)).2 = fs (a_world typed_auth).
Proof.
  assert (H : get_log_file_path (a_world typed_auth)
              = (Ret "/home/op/auth.log",
                 (get_log_file_path (a_world typed_auth)).2))
    by (vm_compute; reflexivity).
  split; [exact H|].
  exact (get_log_file_path_result (a_world typed_auth) _ "/home/op/auth.log" H).
Defined.

Lemma get_log_file_path_default_witness :
  get_log_file_path (wide_world [" Y "; "Failed"]) =
    (Ret "/var/log/syslog",
     set_stdin ["Failed"]
       (set_stdout
          (stdout (wide_world [" Y "; "Failed"]) ++ [ask_default] ++
           ["Default log file found: /var/log/syslog" +:+ LF])
          (wide_world [" Y "; "Failed"]))).
Proof.
  apply (get_log_file_path_default (wide_world [" Y "; "Failed"])
           " Y " ["Failed"] true false log_text); vm_compute; reflexivity.
Defined.

Lemma extract_log_entries_untimed_witness :
  extract_log_entries "/home/op/auth.log" (Some "cron") None None idle =
    (Ret (strip <$> List.filter (has_keyword (Some "cron")) (readlines log_text)),
     idle) /\
  (truthy (Some "cron") = false ->
   List.filter (has_keyword (Some "cron")) (readlines log_text)
     = readlines log_text).
Proof.
  apply (extract_log_entries_untimed "/home/op/auth.log" (Some "cron") idle
           true log_text).
  vm_compute; reflexivity.
Defined.

Lemma extract_log_entries_one_year_witness :
  exists w',
    extract_log_entries "/home/op/auth.log" (Some "Failed")
      (Some midnight) (Some stamp) idle =
      (Ret (strip <$> List.filter
                        (passes (Some "Failed") (Some midnight) (Some stamp) 2026)
                        (readlines log_text)), w') /\
    during idle w'.
Proof.
  apply (extract_log_entries_one_year "/home/op/auth.log" (Some "Failed")
           (Some midnight) (Some stamp) idle true log_text 2026).
  - vm_compute; reflexivity.
  - intros n. reflexivity.
Defined.

Lemma extract_log_entries_directory_witness :
  extract_log_entries "/home/op/logs" None None None (wide_world [])
    = (Raise IsADirectoryError, wide_world []).
Proof.
  apply (extract_log_entries_directory "/home/op/logs" None None None
           (wide_world [])).
  vm_compute; reflexivity.
Defined.

Lemma extract_time_year_witness :
  year stamp = year (clock idle (ticks idle)) /\
  valid stamp = true /\ microsecond stamp = 0.
Proof.
  apply (extract_time_year login_line idle (set_ticks 1 idle) stamp).
  - vm_compute; reflexivity.
  - vm_compute. split; discriminate.
Defined.

Lemma entries_have_keyword_witness :
  exists (entries : list string) (w' : World),
    extract_log_entries "/home/op/auth.log" (Some "Failed")
      (Some midnight) None idle = (Ret entries, w') /\
    Forall (fun entry => contains entry "Failed" = true /\ strip entry = entry)
           entries.
Proof.
  apply (entries_have_keyword "/home/op/auth.log" "Failed" (Some midnight) None
           idle true log_text); vm_compute; reflexivity.
Defined.

Lemma empty_range_drops_witness :
  discarded (Some "Failed") (Some stamp) (Some midnight) login_line [] idle.
Proof.
  apply (empty_range_drops (Some "Failed") stamp midnight login_line [] idle
           (set_ticks 1 idle) stamp).
  - vm_compute; reflexivity.
  - apply compare_lt. reflexivity.
Defined.

Lemma short_line_skips_time_stage_witness :
  loop_body (Some "short") (Some midnight) (Some stamp) short_line [] idle =
    (Ret (if has_keyword (Some "short") short_line
          then [] ++ [strip short_line] else []), idle).
Proof.
  apply (short_line_skips_time_stage (Some "short") (Some midnight) (Some stamp)
           short_line [] idle).
  vm_compute. lia.
Defined.

Lemma save_to_csv_refused_witness :
  exists e : exn,
    save_to_csv ["one"; "two"] "locked.csv" (wide_world [])
      = (Raise e, set_ticks (S (ticks (wide_world []))) (wide_world [])) /\
    (e = PermissionError \/ e = IsADirectoryError).
Proof.
  apply (save_to_csv_refused ["one"; "two"] "locked.csv" (wide_world [])).
  vm_compute; reflexivity.
Defined.

Lemma save_to_csv_twice_witness :
  exists w1 w2 : World,
    save_to_csv ["one"] "parsed_log.csv" idle = (Ret tt, w1) /\
    save_to_csv ["two"; "three"] "parsed_log.csv" w1 = (Ret tt, w2) /\
    text_at "parsed_log.csv" w2 =
      (text_at "parsed_log.csv" idle +:+
       joined (map (csv_record
                      (strftime (clock idle (ticks idle)) "%Y-%m-%d %H:%M:%S"))
                   ["one"])) +:+
      joined (map (csv_record
                     (strftime (clock idle (S (ticks idle))) "%Y-%m-%d %H:%M:%S"))
                  ["two"; "three"]).
Proof.
  apply (save_to_csv_twice ["one"] ["two"; "three"] "parsed_log.csv" idle).
  vm_compute; reflexivity.
Defined.

Lemma save_to_csv_no_entries_witness :
  exists w' : World,
    save_to_csv [] "fresh.csv" idle = (Ret tt, w') /\
    is_Some (fs w' !! "fresh.csv") /\
    text_at "fresh.csv" w' = text_at "fresh.csv" idle /\
    (is_Some (fs idle !! "fresh.csv") -> fs w' = fs idle).
Proof.
  apply (save_to_csv_no_entries "fresh.csv" idle).
  vm_compute; reflexivity.
Defined.

Lemma main_malformed_bound_witness :
  let w := a_world typed_bad_start in
  let w1 := (get_log_file_path (after_banner w)).2 in
  main w =
    (Raise ValueError,
     set_stdin ["left"]
       (set_stdout (stdout w1 ++ [ask_keyword] ++ [ask_start] ++ [ask_end]) w1)) /\
  fs w1 = fs w.
Proof.
  intros w w1.
  apply (main_malformed_bound w w1 "/home/op/auth.log"
           "Failed" "26/11/2026" "" ["left"]); vm_compute; reflexivity.
Defined.

Lemma main_csv_refused_witness :
  let w := locked_world typed_auth in
  let log_entries := ["Nov 26 14:29:50 server sshd: Failed login";
                      "Nov 27 01:00:00 host cron: Failed again"] in
  exists (e : exn) (w' : World),
    main w = (Raise e, w') /\
    (e = PermissionError \/ e = IsADirectoryError) /\
    stdout w' =
      stdout (extract_log_entries "/home/op/auth.log" (Some "Failed")
                (Some midnight) (Some (mkdt 2026 11 27 23 59 59 0))
                (read_criteria w).2).2
      ++ [found_line log_entries] /\
    fs w' = fs w.
Proof.
  intros w log_entries.
  apply (main_csv_refused w (read_criteria w).2
           (extract_log_entries "/home/op/auth.log" (Some "Failed")
              (Some midnight) (Some (mkdt 2026 11 27 23 59 59 0))
              (read_criteria w).2).2
           "/home/op/auth.log" (Some "Failed")
           (Some midnight) (Some (mkdt 2026 11 27 23 59 59 0)) log_entries).
  - vm_compute; reflexivity.
  - vm_compute; reflexivity.
  - discriminate.
  - vm_compute; reflexivity.
Defined.

Lemma time_column_reads_back_witness :
  strptime (strftime stamp "%Y-%m-%d %H:%M:%S") fmt_YmdHMS =
    Ret (mkdt (year stamp) (month stamp) (day stamp)
              (hour stamp) (minute stamp) (second stamp) 0).
Proof.
  apply (time_column_reads_back stamp).
  - vm_compute; reflexivity.
  - vm_compute; discriminate.
Defined.
